(** * Customer-transaction ETL pipeline: validators, cleaners, store, aggregate

    A shallow embedding of [src/data_cleaner.py], [src/database.py],
    [src/etl_pipeline.py] and the checks of
    [airflow/dags/customer_transaction_dag.py].

    Conventions of the embedding
    - A pandas cell that may be missing (NaN / None) is an [option]; [None]
      is the missing value, so [pd.isna x] is [x = None].
    - Text is [string] over ASCII; characters above 127 are outside the model
      (they are treated as neither letters, digits nor white space).
    - The key columns ([customer_id], [product_id], [transaction_id]) are
      [option Z]; [quantity] is [Z]; the money columns ([amount], [price])
      are [Z] counted in hundredths, after the schema's DECIMAL(_, 2).
    - A DataFrame is the list of its rows, in index order.
    - An exception is [None], or [inl] where the kind of the exception
      matters. *)

From Stdlib Require Import ZArith Ascii String.
From stdpp Require Import base option list sorting strings gmap fin_maps.

Local Open Scope Z_scope.

(** ** Characters and text *)

Module Text.

Definition code (c : ascii) : Z := Z.of_N (N_of_ascii c).

Definition in_range (lo hi c : ascii) : bool :=
  (code lo <=? code c) && (code c <=? code hi).

Definition is_digit (c : ascii) : bool := in_range "0" "9" c.
Definition is_lower (c : ascii) : bool := in_range "a" "z" c.
Definition is_upper (c : ascii) : bool := in_range "A" "Z" c.
Definition is_alpha (c : ascii) : bool := is_lower c || is_upper c.

(** [str.isspace] on ASCII: TAB, LF, VT, FF, CR, FS, GS, RS, US, SPACE. *)
Definition is_space (c : ascii) : bool :=
  in_range "009" "013" c || in_range "028" "032" c.

Definition to_lower (c : ascii) : ascii :=
  if is_upper c then ascii_of_N (N_of_ascii c + 32) else c.
Definition to_upper (c : ascii) : ascii :=
  if is_lower c then ascii_of_N (N_of_ascii c - 32) else c.

(** [str.lower()] *)
Fixpoint lower (s : string) : string :=
  match s with
  | EmptyString => EmptyString
  | String c r => String (to_lower c) (lower r)
  end.

(** [str.title()]: a cased character is upper-cased when the previous
    character is not cased, lower-cased otherwise. *)
Fixpoint title_from (prev_cased : bool) (s : string) : string :=
  match s with
  | EmptyString => EmptyString
  | String c r =>
      if is_alpha c
      then String (if prev_cased then to_lower c else to_upper c) (title_from true r)
      else String c (title_from false r)
  end.
Definition title (s : string) : string := title_from false s.

(** [str.strip()] *)
Fixpoint lstrip (s : string) : string :=
  match s with
  | EmptyString => EmptyString
  | String c r => if is_space c then lstrip r else s
  end.
Fixpoint rstrip (s : string) : string :=
  match s with
  | EmptyString => EmptyString
  | String c r =>
      match rstrip r with
      | EmptyString => if is_space c then EmptyString else String c EmptyString
      | r' => String c r'
      end
  end.
Definition strip (s : string) : string := rstrip (lstrip s).

Fixpoint contains (c : ascii) (s : string) : bool :=
  match s with
  | EmptyString => false
  | String a r => Ascii.eqb a c || contains c r
  end.

Fixpoint all_chars (p : ascii → bool) (s : string) : bool :=
  match s with
  | EmptyString => true
  | String c r => p c && all_chars p r
  end.

End Text.

(** ** Regular expressions, as used by [re.match]

    Character classes are predicates; matching is by derivatives. *)

Module Re.

Inductive regex : Type :=
| Void
| Eps
| Class (p : ascii → bool)
| Cat (r1 r2 : regex)
| Alt (r1 r2 : regex)
| Star (r : regex).

Definition Lit (c : ascii) : regex := Class (Ascii.eqb c).
Definition Plus (r : regex) : regex := Cat r (Star r).
(** [r{2,}] *)
Definition AtLeast2 (r : regex) : regex := Cat r (Cat r (Star r)).

Fixpoint nullable (r : regex) : bool :=
  match r with
  | Void => false
  | Eps => true
  | Class _ => false
  | Cat r1 r2 => nullable r1 && nullable r2
  | Alt r1 r2 => nullable r1 || nullable r2
  | Star _ => true
  end.

Fixpoint deriv (c : ascii) (r : regex) : regex :=
  match r with
  | Void => Void
  | Eps => Void
  | Class p => if p c then Eps else Void
  | Cat r1 r2 =>
      if nullable r1
      then Alt (Cat (deriv c r1) r2) (deriv c r2)
      else Cat (deriv c r1) r2
  | Alt r1 r2 => Alt (deriv c r1) (deriv c r2)
  | Star r1 => Cat (deriv c r1) (Star r1)
  end.

(** The language of a regular expression. *)
Inductive matches : regex → string → Prop :=
| matches_eps : matches Eps ""
| matches_class p c : p c = true → matches (Class p) (String c "")
| matches_cat r1 r2 s1 s2 :
    matches r1 s1 → matches r2 s2 → matches (Cat r1 r2) (s1 +:+ s2)
| matches_alt_l r1 r2 s : matches r1 s → matches (Alt r1 r2) s
| matches_alt_r r1 r2 s : matches r2 s → matches (Alt r1 r2) s
| matches_star_nil r : matches (Star r) ""
| matches_star_app r s1 s2 :
    matches r s1 → matches (Star r) s2 → matches (Star r) (s1 +:+ s2).

(** The whole of [s] is in the language of [r]. *)
Fixpoint fullmatch (r : regex) (s : string) : bool :=
  match s with
  | EmptyString => nullable r
  | String c s' => fullmatch (deriv c r) s'
  end.

Fixpoint drop_final_newline (s : string) : option string :=
  match s with
  | EmptyString => None
  | String c EmptyString => if Ascii.eqb c "010" then Some EmptyString else None
  | String c r => String c <$> drop_final_newline r
  end.

(** [re.match('^' + r + '$', s)] without [re.MULTILINE]: [^] anchors at the
    start, and [$] holds at the end of the text and also just before a
    newline that is the last character of the text. *)
Definition match_anchored (r : regex) (s : string) : bool :=
  fullmatch r s ||
  match drop_final_newline s with
  | Some s' => fullmatch r s'
  | None => false
  end.

End Re.

(** ** Validators ([data_cleaner.py]) *)

Definition email_local_char (c : ascii) : bool :=
  Text.is_alpha c || Text.is_digit c ||
  Text.contains c "._%+-".
Definition email_domain_char (c : ascii) : bool :=
  Text.is_alpha c || Text.is_digit c || Text.contains c ".-".

(** [[a-zA-Z0-9._%+-]+@[a-zA-Z0-9.-]+\.[a-zA-Z]{2,}] *)
Definition email_body : Re.regex :=
  Re.Cat (Re.Plus (Re.Class email_local_char))
    (Re.Cat (Re.Lit "@")
       (Re.Cat (Re.Plus (Re.Class email_domain_char))
          (Re.Cat (Re.Lit ".") (Re.AtLeast2 (Re.Class Text.is_alpha))))).

Definition validate_email (email : option string) : bool :=
  match email with
  | None => false
  | Some s =>
      if String.eqb s "" then false
      else Re.match_anchored email_body s
  end.

(** *** Dates: [datetime.strptime(_, '%Y-%m-%d')]

    [strptime] turns the format into the regular expression
    [(?P<Y>\d\d\d\d)-(?P<m>1[0-2]|0[1-9]|[1-9])-(?P<d>3[0-1]|[1-2]\d|0[1-9]|[1-9]| [1-9])],
    matches it at the start of the text, rejects text left over after the
    match, and builds the date, which rejects year 0 and days the month does
    not have.  Each group below lists its successes in the order in which the
    regular-expression engine tries the alternatives. *)

Module Strptime.
Import Text.

Definition digit_val (c : ascii) : Z := code c - 48.

Definition lit (c : ascii) (s : string) : list string :=
  match s with
  | String a r => if Ascii.eqb a c then [r] else []
  | EmptyString => []
  end.

Definition two (p1 p2 : ascii → bool) (s : string) : list (Z * string) :=
  match s with
  | String a (String b r) =>
      if p1 a && p2 b then [(10 * digit_val a + digit_val b, r)] else []
  | _ => []
  end.

Definition one (p : ascii → bool) (s : string) : list (Z * string) :=
  match s with
  | String a r => if p a then [(digit_val a, r)] else []
  | EmptyString => []
  end.

Definition space_one (p : ascii → bool) (s : string) : list (Z * string) :=
  match s with
  | String a (String b r) =>
      if Ascii.eqb a " " && p b then [(digit_val b, r)] else []
  | _ => []
  end.

Definition group_Y (s : string) : list (Z * string) :=
  match s with
  | String a (String b (String c (String d r))) =>
      if is_digit a && is_digit b && is_digit c && is_digit d
      then [(1000 * digit_val a + 100 * digit_val b
             + 10 * digit_val c + digit_val d, r)]
      else []
  | _ => []
  end.

Definition group_m (s : string) : list (Z * string) :=
  two (Ascii.eqb "1") (in_range "0" "2") s
  ++ two (Ascii.eqb "0") (in_range "1" "9") s
  ++ one (in_range "1" "9") s.

Definition group_d (s : string) : list (Z * string) :=
  two (Ascii.eqb "3") (in_range "0" "1") s
  ++ two (in_range "1" "2") is_digit s
  ++ two (Ascii.eqb "0") (in_range "1" "9") s
  ++ one (in_range "1" "9") s
  ++ space_one (in_range "1" "9") s.

(** All ways the format's regular expression matches a prefix of [s], first
    match first, each with the text that follows it. *)
Definition format_regex (s : string) : list ((Z * Z * Z) * string) :=
  ys ← group_Y s;
  s1 ← lit "-" ys.2;
  ms ← group_m s1;
  s2 ← lit "-" ms.2;
  ds ← group_d s2;
  [((ys.1, ms.1, ds.1), ds.2)].

Definition is_leap (y : Z) : bool :=
  (y mod 4 =? 0) && (negb (y mod 100 =? 0) || (y mod 400 =? 0)).

Definition days_in_month (y m : Z) : Z :=
  if m =? 2 then (if is_leap y then 29 else 28)
  else if (m =? 4) || (m =? 6) || (m =? 9) || (m =? 11) then 30
  else 31.

(** The checks of the [datetime.date] constructor. *)
Definition date_ok (y m d : Z) : bool :=
  (1 <=? y) && (y <=? 9999) && (1 <=? m) && (m <=? 12)
  && (1 <=? d) && (d <=? days_in_month y m).

(** [None] is the [ValueError]. *)
Definition strptime (s : string) : option (Z * Z * Z) :=
  match format_regex s with
  | [] => None
  | (ymd, rest) :: _ =>
      if String.eqb rest "" then
        let '(y, m, d) := ymd in
        if date_ok y m d then Some ymd else None
      else None
  end.

End Strptime.

Definition validate_date (date_str : option string) : bool :=
  match date_str with
  | None => false
  | Some s =>
      if String.eqb s "" then false
      else match Strptime.strptime s with
           | Some _ => true
           | None => false
           end
  end.

(** ** Rows of the three tables

    Each record is indexed by the type of the column that the cleaner
    re-types: the raw frame holds text there, the cleaned frame the parsed
    value.  A key cell may be blank in the file; it is then the missing
    value, in the frame (NaN) as in the store (NULL). *)

(** [datetime64[ns]]: nanoseconds since the epoch. *)
Definition Timestamp : Type := Z.

Module Customer.
Record row (D : Type) : Type := mk {
  customer_id : option Z;
  first_name : option string;
  last_name : option string;
  email : option string;
  registration_date : D
}.
Arguments mk {D}.
Arguments customer_id {D}.
Arguments first_name {D}.
Arguments last_name {D}.
Arguments email {D}.
Arguments registration_date {D}.
End Customer.

Module Transaction.
Record row (D : Type) : Type := mk {
  transaction_id : option Z;
  customer_id : option Z;
  product_id : option Z;
  transaction_date : D;
  quantity : Z;
  amount : Z
}.
Arguments mk {D}.
Arguments transaction_id {D}.
Arguments customer_id {D}.
Arguments product_id {D}.
Arguments transaction_date {D}.
Arguments quantity {D}.
Arguments amount {D}.
End Transaction.

Module Product.
Record row (P : Type) : Type := mk {
  product_id : option Z;
  product_name : option string;
  category : option string;
  price : P
}.
Arguments mk {P}.
Arguments product_id {P}.
Arguments product_name {P}.
Arguments category {P}.
Arguments price {P}.
End Product.

Abbreviation RawCustomer := (Customer.row (option string)).
Abbreviation CleanCustomer := (Customer.row (option Timestamp)).
Abbreviation RawTransaction := (Transaction.row (option string)).
Abbreviation CleanTransaction := (Transaction.row (option Timestamp)).
Abbreviation RawProduct := (Product.row (option string)).
Abbreviation CleanProduct := (Product.row (option Z)).

(** ** pandas operations used by the cleaners *)

(** [Series.fillna(v)] on one cell. *)
Definition fillna {A} (v : A) (x : option A) : option A :=
  match x with
  | Some a => Some a
  | None => Some v
  end.

(** [DataFrame.drop_duplicates(subset=...)], [keep='first']: a row is kept
    when no earlier row has its key.  Two missing cells count as equal. *)
Fixpoint drop_duplicates_from {A K} `{EqDecision K}
    (key : A → K) (seen : list K) (df : list A) : list A :=
  match df with
  | [] => []
  | r :: rest =>
      if bool_decide (key r ∈ seen)
      then drop_duplicates_from key seen rest
      else r :: drop_duplicates_from key (key r :: seen) rest
  end.
Definition drop_duplicates {A K} `{EqDecision K} (key : A → K) (df : list A)
  : list A := drop_duplicates_from key [] df.

(** [Series.isin(values)] on one cell; a missing cell is in [values] when
    [values] holds a missing value. *)
Definition isin (x : option Z) (values : gset (option Z)) : bool :=
  bool_decide (x ∈ values).

(** ** Category normalisation *)

Definition category_mapping : list (string * string) :=
  [ ("electronics", "Electronics");
    ("ELECTRONICS", "Electronics");
    ("sports", "Sports");
    ("SPORTS", "Sports");
    ("office supplies", "Office Supplies");
    ("OFFICE SUPPLIES", "Office Supplies");
    ("office_supplies", "Office Supplies") ]%string.

(** [dict.get(k, default)] on the dictionary written as its literal. *)
Fixpoint dict_get (d : list (string * string)) (k default : string) : string :=
  match d with
  | [] => default
  | (k', v) :: rest => if String.eqb k' k then v else dict_get rest k default
  end.

Definition standardize_category (category : option string) : string :=
  match category with
  | None => "Unknown"
  | Some c =>
      let category := Text.strip c in
      dict_get category_mapping (Text.lower category) (Text.title category)
  end.

(** ** The cleaners and the integrity checker

    [pd.to_datetime] and [pd.to_numeric] are pandas' own parsers.  A cleaner
    calls its parser once, on one column; within that call equal texts parse
    to equal values, so the parse of the column is a function from the text
    of a cell to the parsed value, [None] where pandas cannot parse the cell.
    The cleaners are modelled for any such function.  Which function it is
    may depend on the column (pandas settles on one date format for a
    column), so the parameter stands for the parse of the column at hand:
    every call of a cleaner has its own. *)

Section Cleaners.

Variable to_datetime : string → option Timestamp.
Variable to_numeric : string → option Z.

(** *** [clean_customers_data] *)

Definition fill_names (r : RawCustomer) : RawCustomer :=
  Customer.mk (Customer.customer_id r)
    (fillna "Unknown"%string (Customer.first_name r))
    (fillna "Unknown"%string (Customer.last_name r))
    (Customer.email r) (Customer.registration_date r).

(** [pd.to_datetime(column, errors='coerce')] on one row: a cell that is
    missing or does not parse becomes NaT. *)
Definition coerce_registration_date (r : RawCustomer) : CleanCustomer :=
  Customer.mk (Customer.customer_id r) (Customer.first_name r)
    (Customer.last_name r) (Customer.email r)
    (Customer.registration_date r ≫= to_datetime).

Definition has_registration_date (r : CleanCustomer) : bool :=
  bool_decide (is_Some (Customer.registration_date r)).

(** [None] is the [KeyError] of line 51: on a frame without rows the mask
    that [apply] returns is not boolean, indexing with it selects no column,
    and the column ['email'] is then not found. *)
Definition clean_customers_data (df : list RawCustomer)
  : option (list CleanCustomer) :=
  let valid_email_mask r := validate_email (Customer.email r) in
  match df with
  | [] => None
  | _ :: _ =>
      let cleaned_df := filter (λ r, valid_email_mask r = true) df in
      let cleaned_df := fill_names <$> cleaned_df in
      let cleaned_df := coerce_registration_date <$> cleaned_df in
      Some (filter (λ r, has_registration_date r = true) cleaned_df)
  end.

(** *** [clean_transactions_data] *)

(** [pd.to_datetime(column)] with the default [errors='raise'], on one row:
    [None] is the exception. *)
Definition parse_transaction_date (r : RawTransaction)
  : option CleanTransaction :=
  t ← Transaction.transaction_date r ≫= to_datetime;
  Some (Transaction.mk (Transaction.transaction_id r)
          (Transaction.customer_id r) (Transaction.product_id r)
          (Some t) (Transaction.quantity r) (Transaction.amount r)).

Definition duplicate_key (r : CleanTransaction)
  : option Z * option Z * option Timestamp * Z :=
  (Transaction.customer_id r, Transaction.product_id r,
   Transaction.transaction_date r, Transaction.amount r).

Definition positive_row (r : CleanTransaction) : bool :=
  (0 <? Transaction.quantity r) && (0 <? Transaction.amount r).

(** [None] is an exception: the [KeyError] of line 113 on a frame without
    rows (as in [clean_customers_data]), or [pd.to_datetime] raising on a
    row that passed [validate_date]. *)
Definition clean_transactions_data (df : list RawTransaction)
  : option (list CleanTransaction) :=
  let valid_date_mask r := validate_date (Transaction.transaction_date r) in
  match df with
  | [] => None
  | _ :: _ =>
      let cleaned_df := filter (λ r, valid_date_mask r = true) df in
      cleaned_df ← mapM parse_transaction_date cleaned_df;
      let cleaned_df := drop_duplicates duplicate_key cleaned_df in
      Some (filter (λ r, positive_row r = true) cleaned_df)
  end.

(** *** [clean_products_data] *)

(** The three column assignments of the cleaner, on one row; [pd.to_numeric]
    with [errors='coerce'] turns a missing or unparseable cell into NaN. *)
Definition repair_product (r : RawProduct) : CleanProduct :=
  Product.mk (Product.product_id r)
    (fillna "Unknown Product"%string (Product.product_name r))
    (Some (standardize_category (Product.category r)))
    (Product.price r ≫= to_numeric).

(** [price > 0]; a comparison with NaN is false. *)
Definition price_positive (r : CleanProduct) : bool :=
  match Product.price r with
  | Some p => 0 <? p
  | None => false
  end.

(** No mask is used as an index before the comparison [price > 0], which is
    boolean on every frame: the cleaner also returns on a frame without
    rows. *)
Definition clean_products_data (df : list RawProduct) : list CleanProduct :=
  let cleaned_df := repair_product <$> df in
  filter (λ r, price_positive r = true) cleaned_df.

(** *** [validate_data_integrity] *)

Record integrity_report : Type := {
  orphaned_customer_transactions : nat;
  orphaned_product_transactions : nat;
  valid_transactions : nat;
  total_transactions : nat
}.

Definition validate_data_integrity
    (customers_df : list CleanCustomer)
    (transactions_df : list CleanTransaction)
    (products_df : list CleanProduct)
  : list CleanTransaction * integrity_report :=
  let valid_customer_ids : gset (option Z) :=
    list_to_set (Customer.customer_id <$> customers_df) in
  let orphaned_customers :=
    filter (λ t, negb (isin (Transaction.customer_id t) valid_customer_ids) = true)
      transactions_df in
  let valid_product_ids : gset (option Z) :=
    list_to_set (Product.product_id <$> products_df) in
  let orphaned_products :=
    filter (λ t, negb (isin (Transaction.product_id t) valid_product_ids) = true)
      transactions_df in
  let valid :=
    filter (λ t, isin (Transaction.customer_id t) valid_customer_ids
                 && isin (Transaction.product_id t) valid_product_ids = true)
      transactions_df in
  (valid,
   {| orphaned_customer_transactions := length orphaned_customers;
      orphaned_product_transactions := length orphaned_products;
      valid_transactions := length valid;
      total_transactions := length transactions_df |}).

End Cleaners.

(** ** The store ([database.py])

    A table is the list of its rows, in the order a plain SELECT returns
    them, together with what its CREATE statements declared: the column
    constraints and the indexes. *)

Definition present {A} (x : option A) : bool :=
  match x with
  | Some _ => true
  | None => false
  end.

Module Sql.

Inductive constraint (R : Type) : Type :=
| PrimaryKey (col : R → option Z)
| NotNull (present : R → bool)
| UniqueText (col : R → option string)
| Check (p : R → bool)
| ForeignKey (col : R → option Z) (parent : string).
Arguments PrimaryKey {R}.
Arguments NotNull {R}.
Arguments UniqueText {R}.
Arguments Check {R}.
Arguments ForeignKey {R}.

(** Can [stored] be the content of a table that declares the constraint?
    A primary key is present and occurs once; UNIQUE compares the values
    that are not NULL.  SQLite checks foreign keys only under
    [PRAGMA foreign_keys = ON], which the program never issues, so a
    declared foreign key restricts nothing. *)
Definition holds {R} (c : constraint R) (stored : list R) : bool :=
  match c with
  | PrimaryKey col =>
      forallb (λ r, present (col r)) stored
      && bool_decide (NoDup (col <$> stored))
  | NotNull present => forallb present stored
  | UniqueText col => bool_decide (NoDup (omap col stored))
  | Check p => forallb p stored
  | ForeignKey _ _ => true
  end.

Record table (R : Type) : Type := mk_table {
  constraints : list (constraint R);
  indexes : gset string;
  rows : list R
}.
Arguments mk_table {R}.
Arguments constraints {R}.
Arguments indexes {R}.
Arguments rows {R}.

(** [CREATE INDEX IF NOT EXISTS name ON table(column)] *)
Definition create_index {R} (name : string) (t : table R) : table R :=
  mk_table (constraints t) ({[ name ]} ∪ indexes t) (rows t).

(** [DataFrame.to_sql(name, con, if_exists='replace', index=False)]: pandas
    drops the table when it exists, and its indexes with it, creates it
    again from the frame (column names and types; no key, no check, no
    reference) and inserts the rows in the order of the frame.

    The call raises when sqlite3 cannot bind a value of the frame (a Python
    integer outside the 64-bit range is an [OverflowError]).  [accepts]
    tells of a frame whether sqlite3 binds all its values; the store is
    modelled for any such test.  [None] is the exception. *)
Definition to_sql_replace {R} (accepts : list R → bool) (df : list R)
  : option (table R) :=
  if accepts df then Some (mk_table [] ∅ df) else None.

End Sql.

(** The column constraints of [create_schema].  A CHECK passes on NULL. *)
Definition customers_ddl : list (Sql.constraint CleanCustomer) :=
  [ Sql.PrimaryKey Customer.customer_id;
    Sql.NotNull (λ r, present (Customer.first_name r));
    Sql.NotNull (λ r, present (Customer.last_name r));
    Sql.UniqueText Customer.email;
    Sql.NotNull (λ r, present (Customer.email r));
    Sql.NotNull (λ r, present (Customer.registration_date r)) ].

Definition products_ddl : list (Sql.constraint CleanProduct) :=
  [ Sql.PrimaryKey Product.product_id;
    Sql.NotNull (λ r, present (Product.product_name r));
    Sql.NotNull (λ r, present (Product.category r));
    Sql.NotNull (λ r, present (Product.price r));
    Sql.Check (λ r, from_option (Z.ltb 0) true (Product.price r)) ].

(** [quantity] and [amount] are numbers in every row of a frame: a row
    meets their NOT NULL. *)
Definition transactions_ddl : list (Sql.constraint CleanTransaction) :=
  [ Sql.PrimaryKey Transaction.transaction_id;
    Sql.NotNull (λ r, present (Transaction.customer_id r));
    Sql.NotNull (λ r, present (Transaction.product_id r));
    Sql.NotNull (λ r, present (Transaction.transaction_date r));
    Sql.NotNull (λ _, true);
    Sql.Check (λ r, 0 <? Transaction.quantity r);
    Sql.NotNull (λ _, true);
    Sql.Check (λ r, 0 <? Transaction.amount r);
    Sql.ForeignKey Transaction.customer_id "customers";
    Sql.ForeignKey Transaction.product_id "products" ].

(** A row of [customer_revenue] without its key:
    [(total_amount, transaction_count)]. *)
Definition revenue : Type := Z * Z.

(** The database file.  A table that does not exist is [None].
    [customer_revenue] is only ever written through its own INTEGER PRIMARY
    KEY [customer_id], which is the rowid of the row and the order in which
    SQLite stores and returns the rows, so the relation is the finite map
    from the key to the rest of the row. *)
Record database : Type := mk_database {
  customers : option (Sql.table CleanCustomer);
  products : option (Sql.table CleanProduct);
  transactions : option (Sql.table CleanTransaction);
  customer_revenue : option (gmap Z revenue)
}.

Definition empty_database : database := mk_database None None None None.

(** [CREATE TABLE IF NOT EXISTS]: an existing table is left as it is. *)
Definition create_if_not_exists {T} (fresh : T) (existing : option T)
  : option T :=
  match existing with
  | Some t => Some t
  | None => Some fresh
  end.

Definition create_schema (db : database) : database :=
  let customers_table :=
    create_if_not_exists (Sql.mk_table customers_ddl ∅ []) (customers db) in
  let products_table :=
    create_if_not_exists (Sql.mk_table products_ddl ∅ []) (products db) in
  let transactions_table :=
    create_if_not_exists (Sql.mk_table transactions_ddl ∅ [])
      (transactions db) in
  let customer_revenue_table :=
    create_if_not_exists ∅ (customer_revenue db) in
  let transactions_table :=
    Sql.create_index "idx_transactions_customer_id" <$> transactions_table in
  let transactions_table :=
    Sql.create_index "idx_transactions_product_id" <$> transactions_table in
  let transactions_table :=
    Sql.create_index "idx_transactions_date" <$> transactions_table in
  let customers_table :=
    Sql.create_index "idx_customers_email" <$> customers_table in
  let products_table :=
    Sql.create_index "idx_products_category" <$> products_table in
  mk_database customers_table products_table transactions_table
    customer_revenue_table.

Section Loaders.

(** Whether sqlite3 binds every value of a frame of the table. *)
Variable customers_accepted : list CleanCustomer → bool.
Variable products_accepted : list CleanProduct → bool.
Variable transactions_accepted : list CleanTransaction → bool.

Definition load_customers (db : database) (customers_df : list CleanCustomer)
  : option database :=
  t ← Sql.to_sql_replace customers_accepted customers_df;
  Some (mk_database (Some t) (products db) (transactions db)
          (customer_revenue db)).

Definition load_products (db : database) (products_df : list CleanProduct)
  : option database :=
  t ← Sql.to_sql_replace products_accepted products_df;
  Some (mk_database (customers db) (Some t) (transactions db)
          (customer_revenue db)).

Definition load_transactions (db : database)
    (transactions_df : list CleanTransaction) : option database :=
  t ← Sql.to_sql_replace transactions_accepted transactions_df;
  Some (mk_database (customers db) (products db) (Some t)
          (customer_revenue db)).

End Loaders.

(** *** [calculate_customer_revenue] *)

Definition sum_amount (ts : list CleanTransaction) : Z :=
  foldr (λ t acc, Transaction.amount t + acc) 0 ts.

(** The rows of one group; the rows without a customer id form a group. *)
Definition of_customer (c : option Z) (ts : list CleanTransaction)
  : list CleanTransaction :=
  filter (λ t, Transaction.customer_id t = c) ts.

(** The keys of the groups in the order GROUP BY yields them: ascending,
    NULL first. *)
Definition group_keys (keys : list (option Z)) : list (option Z) :=
  (if bool_decide (None ∈ keys) then [None] else [])
  ++ (Some <$> merge_sort Z.le (remove_dups (omap id keys))).

(** [SELECT customer_id, SUM(amount), COUNT( * ) FROM transactions
    GROUP BY customer_id]: one result row per customer id that occurs. *)
Definition select_group_by_customer (ts : list CleanTransaction)
  : list (option Z * revenue) :=
  (λ c, (c, (sum_amount (of_customer c ts),
             Z.of_nat (length (of_customer c ts)))))
  <$> group_keys (Transaction.customer_id <$> ts).

(** The rowid SQLite gives to a row inserted with a NULL key: one more than
    the largest rowid in the table, 1 in an empty table. *)
Definition new_rowid (cr : gmap Z revenue) : Z :=
  match (map_to_list cr).*1 with
  | [] => 1
  | k :: ks => foldr Z.max k ks + 1
  end.

(** [INSERT OR REPLACE INTO customer_revenue], one selected row after the
    other: a stored row with the same key is replaced, every other stored
    row stays; a row whose key is NULL is stored under a new rowid. *)
Definition insert_or_replace (cr : gmap Z revenue)
    (result : list (option Z * revenue)) : gmap Z revenue :=
  foldl (λ m row, match row.1 with
                  | Some k => <[k := row.2]> m
                  | None => <[new_rowid m := row.2]> m
                  end) cr result.

(** [None]: a table the statement names does not exist. *)
Definition calculate_customer_revenue (db : database) : option database :=
  t ← transactions db;
  cr ← customer_revenue db;
  Some (mk_database (customers db) (products db) (transactions db)
          (Some (insert_or_replace cr (select_group_by_customer (Sql.rows t))))).

(** ** The pipeline ([etl_pipeline.py])

    [extract_data] reads the three CSV files into frames; a run is modelled
    from these frames on.  [generate_reports] only reads the store.
    [None] is a run that ends in an exception. *)

Section Pipeline.

(** The parse of the [registration_date] column of the customers and of the
    [transaction_date] column of the transactions. *)
Variable customers_to_datetime : string → option Timestamp.
Variable transactions_to_datetime : string → option Timestamp.
Variable to_numeric : string → option Z.
Variable customers_accepted : list CleanCustomer → bool.
Variable products_accepted : list CleanProduct → bool.
Variable transactions_accepted : list CleanTransaction → bool.

Definition transform_data
    (customers_df : list RawCustomer)
    (transactions_df : list RawTransaction)
    (products_df : list RawProduct)
  : option (list CleanCustomer * list CleanTransaction * list CleanProduct) :=
  cleaned_customers ← clean_customers_data customers_to_datetime customers_df;
  cleaned_transactions ←
    clean_transactions_data transactions_to_datetime transactions_df;
  let cleaned_products := clean_products_data to_numeric products_df in
  let valid_transactions :=
    (validate_data_integrity cleaned_customers cleaned_transactions
       cleaned_products).1 in
  Some (cleaned_customers, valid_transactions, cleaned_products).

Definition load_data (db : database)
    (customers_df : list CleanCustomer)
    (transactions_df : list CleanTransaction)
    (products_df : list CleanProduct) : option database :=
  let db := create_schema db in
  db ← load_customers customers_accepted db customers_df;
  db ← load_products products_accepted db products_df;
  db ← load_transactions transactions_accepted db transactions_df;
  calculate_customer_revenue db.

Definition run (db : database)
    (customers_df : list RawCustomer)
    (transactions_df : list RawTransaction)
    (products_df : list RawProduct) : option database :=
  cleaned ← transform_data customers_df transactions_df products_df;
  let '(cleaned_customers, cleaned_transactions, cleaned_products) := cleaned in
  load_data db cleaned_customers cleaned_transactions cleaned_products.

End Pipeline.

(** ** Parsers for ISO dates and plain decimals

    Instances of the two pandas parsers on the text the sample files use:
    a date written year-month-day, a number written with at most two
    decimals; and of the test of sqlite3 on frames of integers, which it
    binds when they are within the 64-bit range.  They serve to run the
    model on concrete frames. *)

Module Parsers.

(** Days from 1970-01-01 to the given proleptic Gregorian date. *)
Definition days_from_civil (y m d : Z) : Z :=
  let y' := if m <=? 2 then y - 1 else y in
  let era := y' / 400 in
  let yoe := y' - era * 400 in
  let doy := (153 * (if 2 <? m then m - 3 else m + 9) + 2) / 5 + d - 1 in
  let doe := yoe * 365 + yoe / 4 - yoe / 100 + doy in
  era * 146097 + doe - 719468.

Definition to_datetime (s : string) : option Timestamp :=
  (λ ymd : Z * Z * Z,
     let '(y, m, d) := ymd in days_from_civil y m d * 86400 * 1000000000)
  <$> Strptime.strptime s.

Fixpoint digits (acc : Z) (s : string) : Z * string :=
  match s with
  | String c r =>
      if Text.is_digit c then digits (10 * acc + Strptime.digit_val c) r
      else (acc, s)
  | EmptyString => (acc, s)
  end.

(** The number in hundredths. *)
Definition to_numeric (s : string) : option Z :=
  let negative := match s with String "-" _ => true | _ => false end in
  let body := match s with String "-" r => r | _ => s end in
  match body with
  | EmptyString => None
  | String c _ =>
      if Text.is_digit c then
        let '(units, rest) := digits 0 body in
        let sign := if negative then -1 else 1 in
        match rest with
        | EmptyString => Some (sign * (100 * units))
        | String "." (String a EmptyString) =>
            if Text.is_digit a
            then Some (sign * (100 * units + 10 * Strptime.digit_val a))
            else None
        | String "." (String a (String b EmptyString)) =>
            if Text.is_digit a && Text.is_digit b
            then Some (sign * (100 * units + 10 * Strptime.digit_val a
                               + Strptime.digit_val b))
            else None
        | _ => None
        end
      else None
  end.

Definition int64 (z : Z) : bool := (- 2 ^ 63 <=? z) && (z <? 2 ^ 63).

Definition key_int64 (k : option Z) : bool := from_option int64 true k.

Definition customers_accepted (df : list CleanCustomer) : bool :=
  forallb (λ r, key_int64 (Customer.customer_id r)) df.

Definition products_accepted (df : list CleanProduct) : bool :=
  forallb (λ r, key_int64 (Product.product_id r)) df.

Definition transactions_accepted (df : list CleanTransaction) : bool :=
  forallb (λ r, key_int64 (Transaction.transaction_id r)
                && key_int64 (Transaction.customer_id r)
                && key_int64 (Transaction.product_id r)
                && int64 (Transaction.quantity r)) df.

End Parsers.

(** ** Written forms of a calendar date

    The texts in which a year, a month and a day can be written: zero-padded,
    plain, and (for a one-digit day) preceded by a space.  They state which
    texts [validate_date] accepts. *)

Module Render.

Definition digit_char (n : Z) : ascii := ascii_of_N (Z.to_N (48 + n)).

Definition pad2 (n : Z) : string :=
  String (digit_char (n / 10)) (String (digit_char (n mod 10)) "").

Definition plain (n : Z) : string :=
  if n <? 10 then String (digit_char n) "" else pad2 n.

Definition pad4 (n : Z) : string :=
  String (digit_char (n / 1000))
    (String (digit_char (n / 100 mod 10))
       (String (digit_char (n / 10 mod 10))
          (String (digit_char (n mod 10)) ""))).

Definition month_texts (m : Z) : list string := [pad2 m; plain m].

Definition day_texts (d : Z) : list string :=
  [pad2 d; plain d] ++ (if d <? 10 then [String " " (plain d)] else []).

End Render.

(** ** Written form of an address

    A non-empty local part, an at-sign, a non-empty domain, a dot and a
    final segment of two or more letters. *)

Definition email_text (s : string) : Prop :=
  ∃ L D T : string,
    s = L +:+ "@" +:+ D +:+ "." +:+ T
    ∧ L ≠ ""%string ∧ Text.all_chars email_local_char L = true
    ∧ D ≠ ""%string ∧ Text.all_chars email_domain_char D = true
    ∧ (2 ≤ String.length T)%nat ∧ Text.all_chars Text.is_alpha T = true.

(** ** The specification's wording of three operations

    These follow the sentences of the specification, not the code; the
    theorems below compare the code with them. *)

Module Spec.

(** "matches the end-anchored shape local@domain.tld": the whole text is a
    local part, an at-sign, a domain, a dot and a final alphabetic segment. *)
Definition email_shape (s : string) : bool := Re.fullmatch email_body s.

(** "the exact calendar format YYYY-MM-DD (four-digit year, two-digit month
    01-12, two-digit day valid for that month and year)". *)
Definition is_valid_date (value : option string) : bool :=
  match value with
  | Some (String y1 (String y2 (String y3 (String y4 (String "-"
       (String m1 (String m2 (String "-" (String d1 (String d2
          EmptyString)))))))))) =>
      let dv := Strptime.digit_val in
      let y := 1000 * dv y1 + 100 * dv y2 + 10 * dv y3 + dv y4 in
      let m := 10 * dv m1 + dv m2 in
      let d := 10 * dv d1 + dv d2 in
      forallb Text.is_digit [y1; y2; y3; y4; m1; m2; d1; d2]
      && (1 <=? m) && (m <=? 12)
      && (1 <=? d) && (d <=? Strptime.days_in_month y m)
  | _ => false
  end.

(** "the canonical lookup (electronics, sports, office supplies,
    office_supplies)". *)
Definition canonical_keys : list string :=
  ["electronics"; "sports"; "office supplies"; "office_supplies"]%string.

Definition canonical (key : string) : option string :=
  if String.eqb key "electronics" then Some "Electronics"%string
  else if String.eqb key "sports" then Some "Sports"%string
  else if String.eqb key "office supplies" then Some "Office Supplies"%string
  else if String.eqb key "office_supplies" then Some "Office Supplies"%string
  else None.

(** "a raw value whose case-insensitive form is in the canonical lookup
    [maps] to its canonical spelling; any other non-missing value is
    title-cased; a missing category value receives no placeholder". *)
Definition normalize_category (category : option string) : option string :=
  match category with
  | None => None
  | Some c => Some (default (Text.title c) (canonical (Text.lower c)))
  end.

End Spec.

(** ** Input files ([extract_data], [check_input_files])

    Each of the three files is absent from the input directory, or there but
    not a table [pd.read_csv] can read (an empty file, for one), or there
    and read as a frame. *)

Inductive input_file : Type := CustomersCsv | TransactionsCsv | ProductsCsv.

Definition file_name (f : input_file) : string :=
  match f with
  | CustomersCsv => "customers.csv"
  | TransactionsCsv => "transactions.csv"
  | ProductsCsv => "products.csv"
  end.

Inductive csv_file (F : Type) : Type :=
| Absent
| Unreadable
| Readable (df : F).
Arguments Absent {F}.
Arguments Unreadable {F}.
Arguments Readable {F}.

Record input_dir : Type := mk_input_dir {
  customers_csv : csv_file (list RawCustomer);
  transactions_csv : csv_file (list RawTransaction);
  products_csv : csv_file (list RawProduct)
}.

Definition csv_exists {F} (file : csv_file F) : bool :=
  match file with
  | Absent => false
  | _ => true
  end.

(** [file_path.exists()] *)
Definition file_exists (d : input_dir) (f : input_file) : bool :=
  match f with
  | CustomersCsv => csv_exists (customers_csv d)
  | TransactionsCsv => csv_exists (transactions_csv d)
  | ProductsCsv => csv_exists (products_csv d)
  end.

(** The exception that ends [extract_data]. *)
Inductive extract_error : Type :=
| FileNotFound (f : input_file)
| ReadFailed (f : input_file).

(** [pd.read_csv] *)
Definition read_csv {F} (f : input_file) (file : csv_file F)
  : extract_error + F :=
  match file with
  | Absent => inl (FileNotFound f)
  | Unreadable => inl (ReadFailed f)
  | Readable df => inr df
  end.

(** [ETLPipeline.extract_data]: the first file of customers, transactions,
    products that is missing is the [FileNotFoundError]; then the files are
    read in this order, and the first that cannot be read ends the method;
    otherwise the three frames, in the order the method returns them. *)
Definition extract_data (d : input_dir)
  : extract_error
    + (list RawCustomer * list RawTransaction * list RawProduct) :=
  match List.find (λ f, negb (file_exists d f))
          [CustomersCsv; TransactionsCsv; ProductsCsv] with
  | Some f => inl (FileNotFound f)
  | None =>
      match read_csv CustomersCsv (customers_csv d) with
      | inl e => inl e
      | inr customers_df =>
          match read_csv TransactionsCsv (transactions_csv d) with
          | inl e => inl e
          | inr transactions_df =>
              match read_csv ProductsCsv (products_csv d) with
              | inl e => inl e
              | inr products_df =>
                  inr (customers_df, transactions_df, products_df)
              end
          end
      end
  end.

(** [check_input_files] of the DAG: the list of the missing files is the
    [FileNotFoundError] ([inl]); [inr true] when none is missing. *)
Definition check_input_files (d : input_dir) : list input_file + bool :=
  let required_files := [CustomersCsv; TransactionsCsv; ProductsCsv] in
  let missing_files :=
    List.filter (λ f, negb (file_exists d f)) required_files in
  match missing_files with
  | [] => inr true
  | _ => inl missing_files
  end.

(** ** Queries on the store ([validate_output_data]) *)

(** [SELECT COUNT( * ) FROM t]; [None] when the table does not exist. *)
Definition select_count {R} (t : option (Sql.table R)) : option nat :=
  (λ t, length (Sql.rows t)) <$> t.

Definition select_count_revenue (cr : option (gmap Z revenue)) : option nat :=
  size <$> cr.

(** [email NOT LIKE '%@%']; on a NULL email the condition is NULL and the
    row does not count. *)
Definition email_not_like_at (r : CleanCustomer) : bool :=
  match Customer.email r with
  | Some e => negb (Text.contains "@" e)
  | None => false
  end.

Module Dag.

Inductive failure : Type :=
| DatabaseNotFound
| NoSuchTable
| TableIsEmpty (table : string)
| InvalidEmails (n : nat)
| InvalidAmounts (n : nat).

Record table_counts : Type := mk_table_counts {
  customers_count : nat;
  products_count : nat;
  transactions_count : nat;
  customer_revenue_count : nat
}.

(** One round of the loop over the four tables. *)
Definition count_table (table : string) (count : option nat) : failure + nat :=
  match count with
  | None => inl NoSuchTable
  | Some O => inl (TableIsEmpty table)
  | Some n => inr n
  end.

(** [validate_output_data]; [None] is a database file that is not there. *)
Definition validate_output_data (file : option database)
  : failure + table_counts :=
  match file with
  | None => inl DatabaseNotFound
  | Some db =>
      match count_table "customers" (select_count (customers db)) with
      | inl e => inl e
      | inr nc =>
      match count_table "products" (select_count (products db)) with
      | inl e => inl e
      | inr np =>
      match count_table "transactions" (select_count (transactions db)) with
      | inl e => inl e
      | inr nt =>
      match count_table "customer_revenue"
              (select_count_revenue (customer_revenue db)) with
      | inl e => inl e
      | inr nr =>
          let invalid_emails :=
            length (List.filter email_not_like_at
                      (default [] (Sql.rows <$> customers db))) in
          if (0 <? invalid_emails)%nat then inl (InvalidEmails invalid_emails)
          else
            let invalid_amounts :=
              length (List.filter (λ t, Transaction.amount t <=? 0)
                        (default [] (Sql.rows <$> transactions db))) in
            if (0 <? invalid_amounts)%nat
            then inl (InvalidAmounts invalid_amounts)
            else inr (mk_table_counts nc np nt nr)
      end end end end
  end.

End Dag.

(** ** Row constraints of a declared table

    The NOT NULL and CHECK constraints of a table, those that a row meets or
    breaks on its own, whatever else the table holds. *)

Definition row_checks_hold {R} (cs : list (Sql.constraint R)) (r : R) : bool :=
  forallb (λ c, match c with
                | Sql.NotNull p => p r
                | Sql.Check p => p r
                | _ => true
                end) cs.

(** ** Text in ASCII *)

Definition is_ascii (c : ascii) : bool := (Text.code c <? 128).

(** ** Sample files *)

Module Sample.
Local Open Scope string_scope.

Definition alice : RawCustomer :=
  Customer.mk (Some 1) (Some "Alice") (Some "Ng") (Some "alice@example.com")
    (Some "2023-01-15").
(** The same [email] as [alice]. *)
Definition bob : RawCustomer :=
  Customer.mk (Some 2) (Some "Bob") (Some "Lee") (Some "alice@example.com")
    (Some "2023-03-01").
Definition carol : RawCustomer :=
  Customer.mk (Some 3) None (Some "Diaz") (Some "carol@example.org")
    (Some "2023-04-20").
(** A customer whose [customer_id] cell is blank. *)
Definition walk_in : RawCustomer :=
  Customer.mk None (Some "Dana") (Some "Roy") (Some "dana@example.com")
    (Some "2023-05-05").

Definition widget : RawProduct :=
  Product.mk (Some 10) (Some "Widget") (Some "ELECTRONICS") (Some "19.99").
Definition unlabelled : RawProduct :=
  Product.mk (Some 11) None None (Some "5").

Definition purchase_alice : RawTransaction :=
  Transaction.mk (Some 100) (Some 1) (Some 10) (Some "2024-01-05") 1 1999.
(** The same customer, product, date and amount as [purchase_alice]. *)
Definition purchase_alice_repeated : RawTransaction :=
  Transaction.mk (Some 104) (Some 1) (Some 10) (Some "2024-01-05") 3 1999.
Definition purchase_carol : RawTransaction :=
  Transaction.mk (Some 101) (Some 3) (Some 10) (Some "2024-01-06") 2 2500.
(** Quantity 0, and the same customer, product, date and amount as
    [rebooked_item]. *)
Definition returned_item : RawTransaction :=
  Transaction.mk (Some 102) (Some 1) (Some 10) (Some "2024-02-01") 0 1999.
Definition rebooked_item : RawTransaction :=
  Transaction.mk (Some 103) (Some 1) (Some 10) (Some "2024-02-01") 5 1999.
(** A purchase whose [customer_id] cell is blank. *)
Definition purchase_walk_in : RawTransaction :=
  Transaction.mk (Some 110) None (Some 10) (Some "2024-03-01") 1 700.

(** An address followed by a line feed. *)
Definition address_with_newline : string :=
  String.append "a@b.co" (String "010" EmptyString).

(** A store that holds three purchases and an empty [customer_revenue]. *)
Definition loaded_store : database :=
  mk_database None None
    (Some (Sql.mk_table [] ∅
       [Transaction.mk (Some 100) (Some 1) (Some 10) (Some 0) 1 1999;
        Transaction.mk (Some 101) (Some 3) (Some 10) (Some 0) 2 2500;
        Transaction.mk (Some 105) (Some 1) (Some 10) (Some 86400000000000)
          1 500]))
    (Some ∅).

End Sample.

(** A run of the pipeline on files read with the parsers of [Parsers]. *)
Definition run_sample :=
  run Parsers.to_datetime Parsers.to_datetime Parsers.to_numeric
    Parsers.customers_accepted Parsers.products_accepted
    Parsers.transactions_accepted.

(** * Properties *)

(** ** Behaviour on sample values *)

Example validate_email_plain : validate_email (Some "a@b.co"%string) = true.
Proof. vm_compute. reflexivity. Qed.

Example validate_email_no_at : validate_email (Some "a.b.co"%string) = false.
Proof. vm_compute. reflexivity. Qed.

Example validate_date_iso : validate_date (Some "2024-02-29"%string) = true.
Proof. vm_compute. reflexivity. Qed.

Example validate_date_feb30 : validate_date (Some "2023-02-30"%string) = false.
Proof. vm_compute. reflexivity. Qed.

Example validate_date_trailing :
  validate_date (Some "2024-01-311"%string) = false.
Proof. vm_compute. reflexivity. Qed.

Example validate_date_year0 : validate_date (Some "0000-01-01"%string) = false.
Proof. vm_compute. reflexivity. Qed.

Example standardize_upper :
  standardize_category (Some "ELECTRONICS"%string) = "Electronics"%string.
Proof. vm_compute. reflexivity. Qed.

Example standardize_padded :
  standardize_category (Some " home  decor "%string) = "Home  Decor"%string.
Proof. vm_compute. reflexivity. Qed.

Example parsers_epoch : Parsers.to_datetime "1970-01-01" = Some 0.
Proof. vm_compute. reflexivity. Qed.

Example parsers_price : Parsers.to_numeric "19.99" = Some 1999.
Proof. vm_compute. reflexivity. Qed.

Example parsers_word : Parsers.to_numeric "free" = None.
Proof. vm_compute. reflexivity. Qed.

(** ** Lists *)


Lemma filter_comm {A} (P Q : A → Prop) `{!∀ x, Decision (P x)}
    `{!∀ x, Decision (Q x)} (l : list A) :
  filter P (filter Q l) = filter Q (filter P l).
Proof.
  induction l as [|x l IH]; [done|].
  rewrite !filter_cons.
  destruct (decide (Q x)), (decide (P x)); rewrite ?filter_cons;
    repeat (destruct (decide _); try done); by rewrite IH.
Qed.


Lemma drop_duplicates_from_sublist {A K} `{EqDecision K} (key : A → K) seen l :
  drop_duplicates_from key seen l `sublist_of` l.
Proof.
  revert seen. induction l as [|x l IH]; intros seen; simpl.
  - constructor.
  - case_bool_decide.
    + apply sublist_cons_r. left. apply IH.
    + apply sublist_skip. apply IH.
Qed.

(** Among the rows of one key, deduplication keeps the first and only it. *)
Lemma filter_key_drop_duplicates_from {A K} `{EqDecision K}
    (key : A → K) (k : K) (seen : list K) (l : list A) :
  filter (λ r, key r = k) (drop_duplicates_from key seen l)
  = if decide (k ∈ seen) then []
    else match filter (λ r, key r = k) l with
         | [] => []
         | first :: _ => [first]
         end.
Proof.
  revert seen. induction l as [|x l IH]; intros seen.
  - simpl. by destruct (decide _).
  - cbn [drop_duplicates_from]. case_bool_decide as Hx.
    + rewrite IH. destruct (decide (k ∈ seen)) as [Hk|Hk]; [done|].
      rewrite (filter_cons_False _ x). 2:{ intros <-. done. } done.
    + rewrite filter_cons. destruct (decide (key x = k)) as [<-|Hne].
      * rewrite IH.
        destruct (decide (key x ∈ key x :: seen)) as [_|Hn];
          [|exfalso; apply Hn; left].
        destruct (decide (key x ∈ seen)); [done|].
        by rewrite filter_cons_True.
      * rewrite IH, (filter_cons_False _ x) by done.
        destruct (decide (k ∈ seen)) as [Hk|Hk];
          destruct (decide (k ∈ key x :: seen)) as [Hk'|Hk']; try done.
        -- exfalso. apply Hk'. by right.
        -- apply elem_of_cons in Hk' as [->|?]; done.
Qed.

Lemma filter_key_drop_duplicates {A K} `{EqDecision K}
    (key : A → K) (k : K) (l : list A) :
  filter (λ r, key r = k) (drop_duplicates key l)
  = match filter (λ r, key r = k) l with
    | [] => []
    | first :: _ => [first]
    end.
Proof.
  unfold drop_duplicates. rewrite filter_key_drop_duplicates_from.
  destruct (decide (k ∈ [])) as [H|H]; [by apply elem_of_nil in H|done].
Qed.
Lemma isin_spec (x : option Z) (l : list (option Z)) :
  isin x (list_to_set l) = true ↔ x ∈ l.
Proof. unfold isin. rewrite bool_decide_eq_true. apply elem_of_list_to_set. Qed.

Lemma filter_all {A} (P : A → Prop) `{!∀ x, Decision (P x)} (l : list A) :
  (∀ x, x ∈ l → P x) → filter P l = l.
Proof.
  induction l as [|x l IH]; intros Hall; [done|].
  rewrite filter_cons_True by (apply Hall; left).
  f_equal. apply IH. intros y Hy. apply Hall. by right.
Qed.

Lemma filter_none {A} (P : A → Prop) `{!∀ x, Decision (P x)} (l : list A) :
  (∀ x, x ∈ l → ¬ P x) → filter P l = [].
Proof.
  induction l as [|x l IH]; intros Hall; [done|].
  rewrite filter_cons_False by (apply Hall; left).
  apply IH. intros y Hy. apply Hall. by right.
Qed.

(** ** The cleaners *)

Section CleanerEquations.

Variable to_datetime : string → option Timestamp.

Lemma clean_customers_data_Some (df : list RawCustomer)
    (out : list CleanCustomer) :
  clean_customers_data to_datetime df = Some out →
  out = filter (λ r, has_registration_date r = true)
          (coerce_registration_date to_datetime
             <$> (fill_names
                    <$> filter (λ r, validate_email (Customer.email r) = true)
                          df)).
Proof. destruct df as [|r df]; [done|]. by intros [= <-]. Qed.


Lemma clean_transactions_data_Some (df : list RawTransaction)
    (out : list CleanTransaction) :
  clean_transactions_data to_datetime df = Some out →
  df ≠ []
  ∧ ∃ parsed,
      mapM (parse_transaction_date to_datetime)
        (filter (λ r, validate_date (Transaction.transaction_date r) = true) df)
      = Some parsed
      ∧ out = filter (λ r, positive_row r = true)
                (drop_duplicates duplicate_key parsed).
Proof.
  destruct df as [|r df]; [done|]. unfold clean_transactions_data.
  destruct (mapM _ _) as [parsed|]; simpl; [|done].
  intros [= <-]. split; [done|]. by exists parsed.
Qed.

(** The transaction cleaner returns on a frame with rows whenever the date
    parser reads every date that [validate_date] accepts. *)
Lemma clean_transactions_data_returns (df : list RawTransaction) :
  df ≠ [] →
  (∀ s, validate_date (Some s) = true → is_Some (to_datetime s)) →
  is_Some (clean_transactions_data to_datetime df).
Proof.
  intros Hdf Hp. destruct df as [|r0 df0]; [done|].
  unfold clean_transactions_data.
  destruct (mapM _ _) as [parsed|] eqn:Hm; simpl; [done|].
  apply mapM_None in Hm. apply Exists_exists in Hm as (r & Hr & Hnone).
  apply list_elem_of_filter in Hr as [Hv _].
  unfold parse_transaction_date in Hnone.
  destruct (Transaction.transaction_date r) as [s|]; [|done].
  destruct (Hp s Hv) as [t Ht]. simpl in Hnone. by rewrite Ht in Hnone.
Qed.

End CleanerEquations.

(** ** The store *)


Lemma lookup_insert_or_replace (cr : gmap Z revenue) (f : option Z → revenue)
    (cs : list Z) (k : Z) :
  insert_or_replace cr ((λ c, (c, f c)) <$> (Some <$> cs)) !! k
  = if decide (k ∈ cs) then Some (f (Some k)) else cr !! k.
Proof.
  unfold insert_or_replace. revert cr.
  induction cs as [|c cs IH]; intros cr.
  - destruct (decide (k ∈ [])) as [H|H]; [by apply elem_of_nil in H|done].
  - rewrite !fmap_cons. cbn [foldl]. rewrite IH. cbn [fst snd].
    destruct (decide (k ∈ cs)) as [Hin|Hnin];
      destruct (decide (k ∈ c :: cs)) as [Hin'|Hnin']; try done.
    + exfalso. apply Hnin'. by right.
    + apply elem_of_cons in Hin' as [->|?]; [|done]. apply lookup_insert_eq.
    + apply lookup_insert_ne. intros ->. apply Hnin'. left.
Qed.

Lemma elem_of_sorted_keys (keys : list (option Z)) (k : Z) :
  k ∈ merge_sort Z.le (remove_dups (omap id keys)) ↔ Some k ∈ keys.
Proof.
  rewrite merge_sort_Permutation, elem_of_remove_dups, list_elem_of_omap.
  split.
  - intros (x & Hx & Heq). simpl in Heq. by subst x.
  - intros H. by exists (Some k).
Qed.

(** The row of key [c] after the aggregate statement: the sum and the count
    of the transactions of customer [c] when there is one; otherwise the row
    stored before, unless the transactions without customer id were stored
    under this key. *)
Lemma lookup_revenue_after (cr : gmap Z revenue) (ts : list CleanTransaction)
    (c : Z) :
  insert_or_replace cr (select_group_by_customer ts) !! c
  = if decide (Some c ∈ Transaction.customer_id <$> ts)
    then Some (sum_amount (of_customer (Some c) ts),
               Z.of_nat (length (of_customer (Some c) ts)))
    else (if decide (None ∈ Transaction.customer_id <$> ts)
          then <[new_rowid cr := (sum_amount (of_customer None ts),
                                  Z.of_nat (length (of_customer None ts)))]> cr
          else cr) !! c.
Proof.
  unfold select_group_by_customer, group_keys.
  rewrite fmap_app. unfold insert_or_replace at 1. rewrite foldl_app.
  match goal with
  | |- foldl ?step ?m _ !! _ = _ =>
      change (foldl step m ?l) with (insert_or_replace m l)
  end.
  rewrite (lookup_insert_or_replace _
             (λ c, (sum_amount (of_customer c ts),
                    Z.of_nat (length (of_customer c ts))))).
  destruct (decide (c ∈ merge_sort _ _)) as [H|H];
    rewrite elem_of_sorted_keys in H.
  - by rewrite decide_True.
  - rewrite decide_False by done.
    case_bool_decide as Hnull.
    + by rewrite decide_True.
    + by rewrite decide_False.
Qed.

(** When every transaction has a customer id, the statement run a second
    time stores what it stored the first time. *)
Lemma insert_or_replace_twice (cr : gmap Z revenue)
    (ts : list CleanTransaction) :
  None ∉ Transaction.customer_id <$> ts →
  insert_or_replace (insert_or_replace cr (select_group_by_customer ts))
    (select_group_by_customer ts)
  = insert_or_replace cr (select_group_by_customer ts).
Proof.
  intros Hnone. apply map_eq. intros c. rewrite !lookup_revenue_after.
  destruct (decide (Some c ∈ _)); [done|].
  rewrite !(decide_False (P := None ∈ _)) by done.
  rewrite lookup_revenue_after. by rewrite !decide_False by done.
Qed.

Lemma insert_or_replace_nonempty (cr : gmap Z revenue)
    (result : list (option Z * revenue)) :
  result ≠ [] → insert_or_replace cr result ≠ ∅.
Proof.
  unfold insert_or_replace. revert cr.
  induction result as [|row result IH]; intros cr Hne; [done|].
  cbn [foldl]. destruct result as [|row' result].
  - cbn [foldl]. destruct (row.1); apply insert_non_empty.
  - by apply IH.
Qed.

Lemma load_data_eq (ca : list CleanCustomer → bool)
    (pa : list CleanProduct → bool) (ta : list CleanTransaction → bool)
    (db : database) (cs : list CleanCustomer)
    (ts : list CleanTransaction) (ps : list CleanProduct) :
  load_data ca pa ta db cs ts ps
  = if ca cs && pa ps && ta ts
    then Some (mk_database (Some (Sql.mk_table [] ∅ cs))
                 (Some (Sql.mk_table [] ∅ ps))
                 (Some (Sql.mk_table [] ∅ ts))
                 (Some (insert_or_replace (default ∅ (customer_revenue db))
                          (select_group_by_customer ts))))
    else None.
Proof.
  unfold load_data, load_customers, load_products, load_transactions,
    Sql.to_sql_replace.
  destruct (ca cs); [|done]. destruct (pa ps); [|done].
  destruct (ta ts); [|done]. simpl.
  unfold calculate_customer_revenue. simpl.
  by destruct (customer_revenue db).
Qed.

(** ** Text *)

Lemma to_lower_not_upper (c : ascii) : Text.is_upper (Text.to_lower c) = false.
Proof. destruct c as [[] [] [] [] [] [] [] []]; vm_compute; reflexivity. Qed.

Lemma lower_head_not_upper (s : string) (c : ascii) (r : string) :
  Text.lower s = String c r → Text.is_upper c = false.
Proof.
  destruct s as [|a s]; simpl; [done|]. intros [= <- _].
  apply to_lower_not_upper.
Qed.

Lemma eqb_upper_key_lower (k s : string) (c : ascii) (r : string) :
  k = String c r → Text.is_upper c = true → String.eqb k (Text.lower s) = false.
Proof.
  intros -> Hc. apply String.eqb_neq. intros Heq. symmetry in Heq.
  apply lower_head_not_upper in Heq. congruence.
Qed.

(** ** The date format *)

Section DateFormat.
Import Render Text Strptime.

Lemma digit_char_spec (n : Z) :
  0 ≤ n ≤ 9 → is_digit (digit_char n) = true ∧ digit_val (digit_char n) = n.
Proof.
  intros H.
  assert (n = 0 ∨ n = 1 ∨ n = 2 ∨ n = 3 ∨ n = 4 ∨ n = 5 ∨ n = 6 ∨ n = 7
          ∨ n = 8 ∨ n = 9) as Hc by lia.
  repeat (destruct Hc as [-> | Hc]); try subst n; by vm_compute.
Qed.

Lemma is_digit_inv (c : ascii) :
  is_digit c = true → 0 ≤ digit_val c ≤ 9 ∧ digit_char (digit_val c) = c.
Proof.
  destruct c as [[] [] [] [] [] [] [] []]; vm_compute; intros H;
    try discriminate H; split; (reflexivity || (split; discriminate)).
Qed.

Lemma group_Y_pad4 (y : Z) (rest : string) :
  0 ≤ y ≤ 9999 → group_Y (pad4 y +:+ rest) = [(y, rest)].
Proof.
  intros Hy. unfold pad4. change (String ?a ?s +:+ ?r) with (String a (s +:+ r)).
  repeat change (String ?a ?s +:+ ?r) with (String a (s +:+ r)).
  change ("" +:+ rest) with rest. unfold group_Y.
  destruct (digit_char_spec (y / 1000)) as [-> ->];
    [Z.div_mod_to_equations; lia|].
  destruct (digit_char_spec (y / 100 mod 10)) as [-> ->];
    [Z.div_mod_to_equations; lia|].
  destruct (digit_char_spec (y / 10 mod 10)) as [-> ->];
    [Z.div_mod_to_equations; lia|].
  destruct (digit_char_spec (y mod 10)) as [-> ->];
    [Z.div_mod_to_equations; lia|].
  cbn [andb]. do 2 f_equal. Z.div_mod_to_equations; lia.
Qed.

Lemma group_Y_inv (s : string) (y : Z) (rest : string) :
  (y, rest) ∈ group_Y s → 0 ≤ y ≤ 9999 ∧ s = pad4 y +:+ rest.
Proof.
  unfold group_Y.
  destruct s as [|a [|b [|c [|d r]]]]; try (intros H; by apply elem_of_nil in H).
  destruct (is_digit a) eqn:Ha, (is_digit b) eqn:Hb, (is_digit c) eqn:Hc,
    (is_digit d) eqn:Hd; cbn [andb]; try (intros H; by apply elem_of_nil in H).
  intros H. apply list_elem_of_singleton in H. injection H as -> ->.
  apply is_digit_inv in Ha as [Ha Ha'], Hb as [Hb Hb'], Hc as [Hc Hc'],
    Hd as [Hd Hd'].
  split; [lia|]. unfold pad4.
  repeat change (String ?a ?s +:+ ?r) with (String a (s +:+ r)).
  change ("" +:+ r) with r.
  set (va := digit_val a) in *. set (vb := digit_val b) in *.
  set (vc := digit_val c) in *. set (vd := digit_val d) in *.
  replace ((1000 * va + 100 * vb + 10 * vc + vd) / 1000) with va
    by (Z.div_mod_to_equations; lia).
  replace ((1000 * va + 100 * vb + 10 * vc + vd) / 100 mod 10) with vb
    by (Z.div_mod_to_equations; lia).
  replace ((1000 * va + 100 * vb + 10 * vc + vd) / 10 mod 10) with vc
    by (Z.div_mod_to_equations; lia).
  replace ((1000 * va + 100 * vb + 10 * vc + vd) mod 10) with vd
    by (Z.div_mod_to_equations; lia).
  by rewrite Ha', Hb', Hc', Hd'.
Qed.

Lemma two_inv p1 p2 s v r :
  (v, r) ∈ two p1 p2 s →
  ∃ a b, s = String a (String b r) ∧ p1 a = true ∧ p2 b = true
         ∧ v = 10 * digit_val a + digit_val b.
Proof.
  unfold two. destruct s as [|a [|b r']]; try (intros H; by apply elem_of_nil in H).
  destruct (p1 a) eqn:Ha, (p2 b) eqn:Hb; cbn [andb];
    try (intros H; by apply elem_of_nil in H).
  intros H. apply list_elem_of_singleton in H. injection H as -> ->.
  by exists a, b.
Qed.

Lemma one_inv p s v r :
  (v, r) ∈ one p s → ∃ a, s = String a r ∧ p a = true ∧ v = digit_val a.
Proof.
  unfold one. destruct s as [|a r']; try (intros H; by apply elem_of_nil in H).
  destruct (p a) eqn:Ha; try (intros H; by apply elem_of_nil in H).
  intros H. apply list_elem_of_singleton in H. injection H as -> ->.
  by exists a.
Qed.

Lemma space_one_inv p s v r :
  (v, r) ∈ space_one p s →
  ∃ b, s = String " " (String b r) ∧ p b = true ∧ v = digit_val b.
Proof.
  unfold space_one.
  destruct s as [|a [|b r']]; try (intros H; by apply elem_of_nil in H).
  destruct (Ascii.eqb a " ") eqn:Ha, (p b) eqn:Hb; cbn [andb];
    try (intros H; by apply elem_of_nil in H).
  intros H. apply list_elem_of_singleton in H. injection H as -> ->.
  apply Ascii.eqb_eq in Ha as ->. by exists b.
Qed.

Ltac char_cases c H :=
  destruct c as [[] [] [] [] [] [] [] []];
  try (vm_compute in H; discriminate H); clear H.

Ltac text_found M :=
  split; [by vm_compute|];
  exists M; split; [apply (bool_decide_unpack _); by vm_compute|reflexivity].

Lemma group_m_inv (s : string) (m : Z) (r : string) :
  (m, r) ∈ group_m s →
  1 ≤ m ≤ 12 ∧ ∃ M, M ∈ month_texts m ∧ s = M +:+ r.
Proof.
  unfold group_m. rewrite !elem_of_app.
  intros [H|[H|H]].
  - apply two_inv in H as (a & b & -> & Ha & Hb & ->).
    apply Ascii.eqb_eq in Ha as <-. char_cases b Hb;
      match goal with |- context [String ?a (String ?b r)] =>
        text_found (String a (String b "")) end.
  - apply two_inv in H as (a & b & -> & Ha & Hb & ->).
    apply Ascii.eqb_eq in Ha as <-. char_cases b Hb;
      match goal with |- context [String ?a (String ?b r)] =>
        text_found (String a (String b "")) end.
  - apply one_inv in H as (a & -> & Ha & ->).
    char_cases a Ha;
      match goal with |- context [String ?a r] =>
        text_found (String a "") end.
Qed.

Lemma group_d_inv (s : string) (d : Z) (r : string) :
  (d, r) ∈ group_d s →
  1 ≤ d ≤ 31 ∧ ∃ D, D ∈ day_texts d ∧ s = D +:+ r.
Proof.
  unfold group_d. rewrite !elem_of_app.
  intros [H|[H|[H|[H|H]]]].
  - apply two_inv in H as (a & b & -> & Ha & Hb & ->).
    apply Ascii.eqb_eq in Ha as <-. char_cases b Hb;
      match goal with |- context [String ?a (String ?b r)] =>
        text_found (String a (String b "")) end.
  - apply two_inv in H as (a & b & -> & Ha & Hb & ->).
    char_cases a Ha; char_cases b Hb;
      match goal with |- context [String ?a (String ?b r)] =>
        text_found (String a (String b "")) end.
  - apply two_inv in H as (a & b & -> & Ha & Hb & ->).
    apply Ascii.eqb_eq in Ha as <-. char_cases b Hb;
      match goal with |- context [String ?a (String ?b r)] =>
        text_found (String a (String b "")) end.
  - apply one_inv in H as (a & -> & Ha & ->).
    char_cases a Ha;
      match goal with |- context [String ?a r] =>
        text_found (String a "") end.
  - apply space_one_inv in H as (b & -> & Hb & ->).
    char_cases b Hb;
      match goal with |- context [String ?a (String ?b r)] =>
        text_found (String a (String b "")) end.
Qed.

Lemma group_m_then_dash {X} (m : Z) (M rest : string) (k : Z → string → list X) :
  1 ≤ m ≤ 12 → M ∈ month_texts m →
  (ms ← group_m (M +:+ String "-" rest); s2 ← lit "-" ms.2; k ms.1 s2)
  = k m rest.
Proof.
  intros Hm HM.
  assert (Hc : m ∈ seqZ 1 12) by (apply elem_of_seqZ; lia).
  clear Hm. vm_compute in Hc.
  repeat (apply elem_of_cons in Hc as [->|Hc]);
    [..|by apply elem_of_nil in Hc];
    vm_compute in HM;
    repeat (apply elem_of_cons in HM as [->|HM]);
    try (by apply elem_of_nil in HM);
    match goal with
    | |- context [group_m ?s] =>
        let t := eval vm_compute in (group_m s) in change (group_m s) with t
    end;
    cbv -[app]; by rewrite ?app_nil_r.
Qed.

Lemma group_d_whole (d : Z) (D : string) :
  1 ≤ d ≤ 31 → D ∈ day_texts d → ∃ others, group_d D = (d, ""%string) :: others.
Proof.
  intros Hd HD.
  assert (Hc : d ∈ seqZ 1 31) by (apply elem_of_seqZ; lia).
  clear Hd. vm_compute in Hc.
  repeat (apply elem_of_cons in Hc as [->|Hc]);
    [..|by apply elem_of_nil in Hc];
    vm_compute in HD;
    repeat (apply elem_of_cons in HD as [->|HD]);
    try (by apply elem_of_nil in HD);
    vm_compute; eexists; reflexivity.
Qed.

Lemma lit_inv (c : ascii) (s r : string) : r ∈ lit c s → s = String c r.
Proof.
  unfold lit. destruct s as [|a s']; [intros H; by apply elem_of_nil in H|].
  destruct (Ascii.eqb_spec a c) as [->|?]; [|intros H; by apply elem_of_nil in H].
  intros H. by apply list_elem_of_singleton in H as ->.
Qed.

Lemma list_bind_cons {A B} (f : A → list B) (x : A) (l : list A) :
  (x :: l) ≫= f = f x ++ (l ≫= f).
Proof. reflexivity. Qed.

Lemma list_bind_nil {A B} (f : A → list B) : [] ≫= f = [].
Proof. reflexivity. Qed.

Lemma format_regex_inv (s : string) (y m d : Z) (r : string) :
  ((y, m, d), r) ∈ format_regex s →
  0 ≤ y ≤ 9999 ∧ 1 ≤ m ≤ 12 ∧ 1 ≤ d ≤ 31
  ∧ ∃ M D, M ∈ month_texts m ∧ D ∈ day_texts d
           ∧ s = pad4 y +:+ "-" +:+ M +:+ "-" +:+ D +:+ r.
Proof.
  unfold format_regex.
  intros H.
  apply list_elem_of_bind in H as ([y' s0] & H & Hy).
  apply list_elem_of_bind in H as (s1 & H & Hs1).
  apply list_elem_of_bind in H as ([m' s2] & H & Hm).
  apply list_elem_of_bind in H as (s3 & H & Hs3).
  apply list_elem_of_bind in H as ([d' s4] & H & Hd).
  apply list_elem_of_singleton in H. cbn [fst snd] in *.
  injection H as -> -> -> ->.
  apply group_Y_inv in Hy as [Hy ->].
  apply lit_inv in Hs1 as ->.
  apply group_m_inv in Hm as [Hm (M & HM & ->)].
  apply lit_inv in Hs3 as ->.
  apply group_d_inv in Hd as [Hd (D & HD & ->)].
  repeat split; try lia. by exists M, D.
Qed.

Lemma format_regex_rendered (y m d : Z) (M D : string) :
  0 ≤ y ≤ 9999 → 1 ≤ m ≤ 12 → 1 ≤ d ≤ 31 →
  M ∈ month_texts m → D ∈ day_texts d →
  ∃ others,
    format_regex (pad4 y +:+ "-" +:+ M +:+ "-" +:+ D)
    = ((y, m, d), ""%string) :: others.
Proof.
  intros Hy Hm Hd HM HD. unfold format_regex.
  rewrite group_Y_pad4 by done.
  rewrite list_bind_cons, list_bind_nil, app_nil_r. cbn [fst snd].
  change (lit "-" ("-" +:+ M +:+ "-" +:+ D)) with [M +:+ String "-" D].
  rewrite list_bind_cons, list_bind_nil, app_nil_r.
  rewrite (group_m_then_dash m M D
             (λ m' s2, ds ← group_d s2; [((y, m', ds.1), ds.2)])) by done.
  destruct (group_d_whole d D Hd HD) as [others ->].
  rewrite list_bind_cons. by eexists.
Qed.

Lemma date_ok_spec (y m d : Z) :
  date_ok y m d = true
  ↔ 1 ≤ y ≤ 9999 ∧ 1 ≤ m ≤ 12 ∧ 1 ≤ d ≤ days_in_month y m.
Proof. unfold date_ok. rewrite !andb_true_iff, !Z.leb_le. tauto. Qed.

Lemma days_in_month_le (y m : Z) : days_in_month y m ≤ 31.
Proof.
  unfold days_in_month.
  repeat match goal with |- context [if ?b then _ else _] => destruct b end; lia.
Qed.

End DateFormat.

(** ** Regular expressions and the address pattern *)

Section AddressPattern.
Import Re.

Lemma append_nil_r (s : string) : s +:+ "" = s.
Proof.
  induction s as [|c s IH]; [done|].
  change (String c s +:+ "") with (String c (s +:+ "")). by rewrite IH.
Qed.

Lemma append_nil_l (s : string) : "" +:+ s = s.
Proof. reflexivity. Qed.

Lemma append_cons (c : ascii) (s t : string) :
  String c s +:+ t = String c (s +:+ t).
Proof. reflexivity. Qed.

Lemma append_assoc (s t u : string) : (s +:+ t) +:+ u = s +:+ t +:+ u.
Proof.
  induction s as [|c s IH]; [done|]. by rewrite !append_cons, IH.
Qed.

Lemma append_eq_nil (s t : string) : s +:+ t = ""%string → s = ""%string ∧ t = ""%string.
Proof. destruct s; [done|]. rewrite append_cons. discriminate. Qed.

Lemma append_eq_cons (s t : string) (c : ascii) (u : string) :
  s +:+ t = String c u →
  (s = ""%string ∧ t = String c u) ∨ ∃ s', s = String c s' ∧ u = s' +:+ t.
Proof.
  destruct s as [|a s]; [by left|]. rewrite append_cons.
  intros [= -> <-]. right. by exists s.
Qed.

Lemma nullable_spec (r : regex) : nullable r = true ↔ matches r "".
Proof.
  split.
  - induction r; simpl; intros H; try discriminate.
    + constructor.
    + apply andb_true_iff in H as [H1 H2].
      change ""%string with ("" +:+ "")%string. constructor; auto.
    + apply orb_true_iff in H as [H|H];
        [apply matches_alt_l|apply matches_alt_r]; auto.
    + constructor.
  - remember ""%string as s eqn:Hs. intros H.
    induction H; simpl; try done.
    + apply append_eq_nil in Hs as [-> ->]. by rewrite IHmatches1, IHmatches2.
    + by rewrite IHmatches.
    + rewrite IHmatches by done. apply orb_true_r.
Qed.

Lemma deriv_complete (r : regex) (c : ascii) (s : string) :
  matches r (String c s) → matches (deriv c r) s.
Proof.
  remember (String c s) as t eqn:Ht. intros H. revert s Ht.
  induction H as [|p a Hp|r1 r2 s1 s2 H1 IH1 H2 IH2|r1 r2 t H IH|r1 r2 t H IH
                 |r|r s1 s2 H1 IH1 H2 IH2]; intros s Ht; simpl.
  - done.
  - injection Ht as -> <-. rewrite Hp. constructor.
  - apply append_eq_cons in Ht as [[-> ->]|(s1' & -> & ->)].
    + apply nullable_spec in H1 as ->. apply matches_alt_r. by apply IH2.
    + assert (Hd : matches (Cat (deriv c r1) r2) (s1' +:+ s2))
        by (constructor; [by apply IH1|done]).
      destruct (nullable r1); [by apply matches_alt_l|done].
  - apply matches_alt_l. by apply IH.
  - apply matches_alt_r. by apply IH.
  - done.
  - apply append_eq_cons in Ht as [[-> ->]|(s1' & -> & ->)].
    + by apply IH2.
    + constructor; [by apply IH1|done].
Qed.

Lemma deriv_sound (r : regex) (c : ascii) (s : string) :
  matches (deriv c r) s → matches r (String c s).
Proof.
  revert s. induction r as [| |p|r1 IH1 r2 IH2|r1 IH1 r2 IH2|r IH];
    intros s; simpl; intros H.
  - inversion H.
  - inversion H.
  - destruct (p c) eqn:Hp; inversion H; subst. by constructor.
  - destruct (nullable r1) eqn:Hn.
    + inversion H as [| | |? ? ? Hl|? ? ? Hr| |]; subst.
      * inversion Hl as [| |? ? s1 s2 Ha Hb| | | |]; subst.
        rewrite <-append_cons. constructor; [by apply IH1|done].
      * change (String c s) with ("" +:+ String c s).
        constructor; [by apply nullable_spec|by apply IH2].
    + inversion H as [| |? ? s1 s2 Ha Hb| | | |]; subst.
      rewrite <-append_cons. constructor; [by apply IH1|done].
  - inversion H; subst; [apply matches_alt_l|apply matches_alt_r]; auto.
  - inversion H as [| |? ? s1 s2 Ha Hb| | | |]; subst.
    rewrite <-append_cons. constructor; [by apply IH|done].
Qed.

Lemma fullmatch_spec (r : regex) (s : string) :
  fullmatch r s = true ↔ matches r s.
Proof.
  revert r. induction s as [|c s IH]; intros r; simpl.
  - apply nullable_spec.
  - rewrite IH. split; [apply deriv_sound|apply deriv_complete].
Qed.

Lemma matches_class_inv (p : ascii → bool) (s : string) :
  matches (Class p) s ↔ ∃ c, s = String c "" ∧ p c = true.
Proof.
  split.
  - intros H. inversion H; subst. eauto.
  - intros (c & -> & Hc). by constructor.
Qed.

Lemma matches_cat_inv (r1 r2 : regex) (s : string) :
  matches (Cat r1 r2) s
  ↔ ∃ s1 s2, s = s1 +:+ s2 ∧ matches r1 s1 ∧ matches r2 s2.
Proof.
  split.
  - intros H. inversion H; subst. eauto.
  - intros (s1 & s2 & -> & H1 & H2). by constructor.
Qed.

Lemma matches_star_class (p : ascii → bool) (s : string) :
  matches (Star (Class p)) s ↔ Text.all_chars p s = true.
Proof.
  split.
  - remember (Star (Class p)) as r eqn:Hr. intros H.
    induction H as [| | | | | |r s1 s2 H1 _ H2 IH2]; try discriminate Hr.
    + done.
    + injection Hr as ->. apply matches_class_inv in H1 as (c & -> & Hc).
      rewrite append_cons, append_nil_l. simpl. rewrite Hc. by apply IH2.
  - induction s as [|c s IH]; simpl; intros H; [constructor|].
    apply andb_true_iff in H as [Hc Hs].
    change (String c s) with (String c "" +:+ s).
    constructor; [by constructor|by apply IH].
Qed.

Lemma matches_plus_class (p : ascii → bool) (s : string) :
  matches (Plus (Class p)) s ↔ s ≠ ""%string ∧ Text.all_chars p s = true.
Proof.
  unfold Plus. rewrite matches_cat_inv. split.
  - intros (s1 & s2 & -> & H1 & H2).
    apply matches_class_inv in H1 as (c & -> & Hc).
    apply matches_star_class in H2. rewrite append_cons, append_nil_l.
    simpl. by rewrite Hc, H2.
  - intros [Hne H]. destruct s as [|c s]; [done|]. simpl in H.
    apply andb_true_iff in H as [Hc Hs].
    exists (String c ""), s. split; [done|]. split.
    + by apply matches_class_inv; exists c.
    + by apply matches_star_class.
Qed.

Lemma matches_atleast2_class (p : ascii → bool) (s : string) :
  matches (AtLeast2 (Class p)) s
  ↔ (2 ≤ String.length s)%nat ∧ Text.all_chars p s = true.
Proof.
  unfold AtLeast2. rewrite matches_cat_inv. split.
  - intros (s1 & s2 & -> & H1 & H2).
    apply matches_class_inv in H1 as (c & -> & Hc).
    apply (matches_plus_class p) in H2 as [Hne H2].
    rewrite append_cons, append_nil_l. simpl. rewrite Hc, H2.
    destruct s2; [done|]. simpl. split; [lia|done].
  - intros [Hlen H]. destruct s as [|c s]; [simpl in Hlen; lia|].
    simpl in H. apply andb_true_iff in H as [Hc Hs].
    exists (String c ""), s. split; [done|]. split.
    + by apply matches_class_inv; exists c.
    + apply (matches_plus_class p). split; [|done].
      intros ->. simpl in Hlen. lia.
Qed.

Lemma matches_lit_inv (c : ascii) (s : string) :
  matches (Lit c) s ↔ s = String c "".
Proof.
  unfold Lit. rewrite matches_class_inv. split.
  - intros (a & -> & Ha). by apply Ascii.eqb_eq in Ha as ->.
  - intros ->. exists c. split; [done|]. apply Ascii.eqb_refl.
Qed.

Lemma email_body_spec (s : string) : matches email_body s ↔ email_text s.
Proof.
  unfold email_body, email_text. split.
  - intros H.
    apply matches_cat_inv in H as (L & s1 & -> & HL & H).
    apply matches_cat_inv in H as (a & s2 & -> & Ha & H).
    apply matches_cat_inv in H as (D & s3 & -> & HD & H).
    apply matches_cat_inv in H as (d & T & -> & Hd & HT).
    apply matches_lit_inv in Ha as ->, Hd as ->.
    apply matches_plus_class in HL as [? ?], HD as [? ?].
    apply matches_atleast2_class in HT as [? ?].
    by exists L, D, T.
  - intros (L & D & T & -> & ? & ? & ? & ? & ? & ?).
    apply matches_cat_inv. exists L, ("@" +:+ D +:+ "." +:+ T).
    split; [done|]. split; [by apply matches_plus_class|].
    apply matches_cat_inv. exists "@"%string, (D +:+ "." +:+ T).
    split; [done|]. split; [by apply matches_lit_inv|].
    apply matches_cat_inv. exists D, ("." +:+ T).
    split; [done|]. split; [by apply matches_plus_class|].
    apply matches_cat_inv. exists "."%string, T.
    split; [done|]. split; [by apply matches_lit_inv|].
    by apply matches_atleast2_class.
Qed.

Lemma drop_final_newline_spec (s s' : string) :
  drop_final_newline s = Some s' ↔ s = s' +:+ String "010" "".
Proof.
  revert s'. induction s as [|c s IH]; intros s'.
  - simpl. split; [done|]. intros H. symmetry in H.
    by apply append_eq_nil in H as [_ ?].
  - destruct s as [|c' s].
    + simpl. destruct (Ascii.eqb_spec c "010") as [->|Hc]; split.
      * by intros [= <-].
      * intros H. destruct s' as [|a [|b s']]; [done|discriminate H..].
      * done.
      * intros H. destruct s' as [|a [|b s']]; [|discriminate H..].
        injection H as ->. done.
    + change (drop_final_newline (String c (String c' s)))
        with (String c <$> drop_final_newline (String c' s)).
      destruct (drop_final_newline (String c' s)) as [t|]; simpl.
      * split.
        -- intros [= <-]. rewrite append_cons. f_equal. by apply IH.
        -- intros H. destruct s' as [|a s']; [discriminate H|].
           rewrite append_cons in H. injection H as <- H.
           apply IH in H. by injection H as ->.
      * split; [done|]. intros H. destruct s' as [|a s']; [discriminate H|].
        rewrite append_cons in H. injection H as <- H.
        by apply IH in H.
Qed.

Lemma validate_email_iff (s : string) :
  validate_email (Some s) = true
  ↔ email_text s ∨ ∃ s', s = s' +:+ String "010" "" ∧ email_text s'.
Proof.
  unfold validate_email, match_anchored.
  assert (Hne : email_text s → s ≠ ""%string).
  { intros (L & D & T & -> & HL & _) H. apply append_eq_nil in H as [? _]. done. }
  split.
  - destruct (String.eqb_spec s "") as [->|Hs]; [done|].
    intros H. apply orb_true_iff in H as [H|H].
    + left. by apply email_body_spec, fullmatch_spec.
    + right. destruct (drop_final_newline s) as [s'|] eqn:Hd; [|done].
      exists s'. split; [by apply drop_final_newline_spec|].
      by apply email_body_spec, fullmatch_spec.
  - intros [H|(s' & -> & H)].
    + destruct (String.eqb_spec s "") as [->|Hs]; [by apply Hne in H|].
      apply orb_true_iff. left. by apply fullmatch_spec, email_body_spec.
    + destruct (String.eqb_spec (s' +:+ String "010" "") "") as [He|_].
      { apply append_eq_nil in He as [_ ?]. done. }
      apply orb_true_iff. right.
      rewrite (proj2 (drop_final_newline_spec _ s') eq_refl).
      by apply fullmatch_spec, email_body_spec.
Qed.

Lemma contains_append (c : ascii) (s t : string) :
  Text.contains c (s +:+ t) = Text.contains c s || Text.contains c t.
Proof.
  induction s as [|a s IH]; [done|].
  rewrite append_cons. simpl. by rewrite IH, orb_assoc.
Qed.

Lemma email_text_contains_at (s : string) :
  email_text s → Text.contains "@" s = true.
Proof.
  intros (L & D & T & -> & _). rewrite contains_append.
  apply orb_true_iff. right. reflexivity.
Qed.

Lemma validate_email_needs_at (s : string) :
  Text.contains "@" s = false → validate_email (Some s) = false.
Proof.
  intros Hc. apply not_true_is_false. intros H.
  apply validate_email_iff in H as [H|(s' & -> & H)];
    apply email_text_contains_at in H.
  - congruence.
  - rewrite contains_append, H in Hc. done.
Qed.

End AddressPattern.

(** ** The claims *)

Section Claims.

Variable to_datetime : string → option Timestamp.
Variable to_numeric : string → option Z.
Variable customers_accepted : list CleanCustomer → bool.

(** The row of every customer after [calculate_customer_revenue]. *)
Lemma calculate_customer_revenue_row (db db' : database)
    (t : Sql.table CleanTransaction) (c : Z) :
  transactions db = Some t →
  calculate_customer_revenue db = Some db' →
  Some c ∈ Transaction.customer_id <$> Sql.rows t →
  customer_revenue db' ≫= (.!! c)
  = Some (sum_amount (of_customer (Some c) (Sql.rows t)),
          Z.of_nat (length (of_customer (Some c) (Sql.rows t)))).
Proof.
  unfold calculate_customer_revenue. intros -> Hdb' Hc. simpl in Hdb'.
  destruct (customer_revenue db) as [cr|]; simpl in Hdb'; [|done].
  injection Hdb' as <-. simpl. rewrite lookup_revenue_after.
  by rewrite decide_True.
Qed.

(** C2. Referential closure: a transaction is in the output of
    [validate_data_integrity] exactly when it is in the input, its
    [customer_id] occurs in the customers table and its [product_id] occurs in
    the products table; so every surviving row references an existing
    customer and an existing product, and every row failing either test is
    removed. *)
Theorem referential_closure
    (customers_df : list CleanCustomer)
    (transactions_df : list CleanTransaction)
    (products_df : list CleanProduct) (t : CleanTransaction) :
  t ∈ (validate_data_integrity customers_df transactions_df products_df).1
  ↔ t ∈ transactions_df
    ∧ Transaction.customer_id t ∈ (Customer.customer_id <$> customers_df)
    ∧ Transaction.product_id t ∈ (Product.product_id <$> products_df).
Proof.
  unfold validate_data_integrity. simpl.
  rewrite list_elem_of_filter, andb_true_iff, !isin_spec. tauto.
Qed.


(** C8, as amended.  When the cleaner returns, the rows that passed the date
    filter, with their dates parsed, are [parsed]; for every key (customer,
    product, date, amount) the output holds at most one row: the first row of
    [parsed] with that key, and it holds it exactly when that row has a
    positive quantity and a positive amount.  Deduplication thus runs after
    the date filter and before the positivity filter. *)
Theorem duplicates_collapse_to_first (df : list RawTransaction)
    (out : list CleanTransaction) :
  clean_transactions_data to_datetime df = Some out →
  ∃ parsed,
    Forall2 (λ r o, parse_transaction_date to_datetime r = Some o)
      (filter (λ r, validate_date (Transaction.transaction_date r) = true) df)
      parsed
    ∧ ∀ k,
        filter (λ o, duplicate_key o = k) out
        = match filter (λ o, duplicate_key o = k) parsed with
          | [] => []
          | first :: _ => if positive_row first then [first] else []
          end.
Proof.
  intros (_ & parsed & Hm & ->)%clean_transactions_data_Some.
  exists parsed. split; [by apply mapM_Some|].
  intros k. rewrite filter_comm, filter_key_drop_duplicates.
  destruct (filter _ parsed) as [|first rest]; [done|].
  rewrite filter_cons, filter_nil.
  destruct (positive_row first); by destruct (decide _).
Qed.


End Claims.

(** The sample parser reads every date that [validate_date] accepts, so the
    transaction cleaner returns on every sample file that has rows. *)
Lemma parsers_read_validated_dates (s : string) :
  validate_date (Some s) = true → is_Some (Parsers.to_datetime s).
Proof.
  unfold validate_date, Parsers.to_datetime.
  destruct (String.eqb s ""); [done|].
  destruct (Strptime.strptime s); [by eexists|done].
Qed.

(** *** Aggregation *)

(** C1, on the failing input.  First run: Alice and Carol each buy once.
    Second run on the same store: only Alice's purchase is in the file.
    After it the transactions table has no row of customer 3, and
    [customer_revenue] still holds the row of customer 3 from the first
    run. *)
Theorem stale_revenue_row_survives_rerun :
  (db1 ← run_sample empty_database [Sample.alice; Sample.carol]
           [Sample.purchase_alice; Sample.purchase_carol] [Sample.widget];
   db2 ← run_sample db1 [Sample.alice; Sample.carol]
           [Sample.purchase_alice] [Sample.widget];
   t ← transactions db2;
   cr ← customer_revenue db2;
   Some (of_customer (Some 3) (Sql.rows t), cr !! 3, cr !! 1))
  = Some ([], Some (2500, 1), Some (1999, 1)).
Proof. vm_compute. reflexivity. Qed.

(** C9, on the failing input: a customer and a purchase whose [customer_id]
    cells are blank.  The purchase passes the integrity check, since the
    missing id occurs among the customer ids, and is stored without
    customer id.  The first run stores its aggregate under the new rowid 1;
    the second run, on the same files, stores it again under the new rowid
    2 and leaves the row of the first run: [customer_revenue] has one row
    after the first run and two after the second, although both runs stored
    the same transactions. *)
Theorem rerun_adds_revenue_row_for_blank_customer :
  (db1 ← run_sample empty_database [Sample.walk_in]
           [Sample.purchase_walk_in] [Sample.widget];
   db2 ← run_sample db1 [Sample.walk_in]
           [Sample.purchase_walk_in] [Sample.widget];
   t1 ← transactions db1;
   t2 ← transactions db2;
   cr1 ← customer_revenue db1;
   cr2 ← customer_revenue db2;
   Some (Transaction.customer_id <$> Sql.rows t1,
         Transaction.customer_id <$> Sql.rows t2,
         (size cr1, cr1 !! 1, cr1 !! 2),
         (size cr2, cr2 !! 1, cr2 !! 2)))
  = Some ([None], [None],
          (1%nat, Some (700, 1), None),
          (2%nat, Some (700, 1), Some (700, 1))).
Proof. vm_compute. reflexivity. Qed.

(** *** Storage constraints *)

(** C3, on the failing input: two customers with one address, and a
    purchase of the first.  The run succeeds; the stored customers table has
    no constraint left and holds the address twice, which the UNIQUE
    constraint that [create_schema] declared for the table rules out. *)
Theorem load_replaces_declared_schema :
  ∃ db t,
    run_sample empty_database [Sample.alice; Sample.bob]
      [Sample.purchase_alice] [Sample.widget] = Some db
    ∧ customers db = Some t
    ∧ Sql.constraints t = []
    ∧ Customer.email <$> Sql.rows t
      = [Some "alice@example.com"%string; Some "alice@example.com"%string]
    ∧ Sql.UniqueText Customer.email ∈ customers_ddl
    ∧ Sql.holds (Sql.UniqueText Customer.email) (Sql.rows t) = false.
Proof.
  eexists _, _. split; [vm_compute; reflexivity|].
  split; [reflexivity|]. split; [reflexivity|]. split; [reflexivity|].
  split; [|vm_compute; reflexivity].
  unfold customers_ddl. rewrite !elem_of_cons. tauto.
Qed.

(** *** Duplicate customers *)



(** *** Duplicate transactions *)

(** C8 fails as stated: two rows with one key and a valid date, the first
    with quantity 0, the second with quantity 5, leave no output row. *)
Lemma duplicate_of_rejected_row_leaves_none :
  (Transaction.customer_id Sample.returned_item,
   Transaction.product_id Sample.returned_item,
   Transaction.transaction_date Sample.returned_item,
   Transaction.amount Sample.returned_item)
  = (Transaction.customer_id Sample.rebooked_item,
     Transaction.product_id Sample.rebooked_item,
     Transaction.transaction_date Sample.rebooked_item,
     Transaction.amount Sample.rebooked_item)
  ∧ validate_date (Transaction.transaction_date Sample.returned_item) = true
  ∧ positive_row
      (Transaction.mk (Some 103) (Some 1) (Some 10)
         (Parsers.to_datetime "2024-02-01") 5 1999)
    = true
  ∧ clean_transactions_data Parsers.to_datetime
      [Sample.returned_item; Sample.rebooked_item] = Some [].
Proof. repeat split; vm_compute; reflexivity. Qed.

(** C8 as amended, at a file with a repeated purchase. *)
Lemma duplicates_collapse_to_first_witness :
  ∃ out,
    clean_transactions_data Parsers.to_datetime
      [Sample.purchase_alice; Sample.purchase_alice_repeated;
       Sample.purchase_carol] = Some out
    ∧ ∃ parsed,
        Forall2 (λ r o, parse_transaction_date Parsers.to_datetime r = Some o)
          (filter
             (λ r, validate_date (Transaction.transaction_date r) = true)
             [Sample.purchase_alice; Sample.purchase_alice_repeated;
              Sample.purchase_carol])
          parsed
        ∧ ∀ k,
            filter (λ o, duplicate_key o = k) out
            = match filter (λ o, duplicate_key o = k) parsed with
              | [] => []
              | first :: _ => if positive_row first then [first] else []
              end.
Proof.
  eexists. split; [vm_compute; reflexivity|].
  apply (duplicates_collapse_to_first Parsers.to_datetime).
  vm_compute. reflexivity.
Defined.

(** *** Categories *)

(** C5 fails as stated: a product without category is stored with the
    category "Unknown". *)
Lemma missing_category_gets_placeholder :
  Product.category (repair_product Parsers.to_numeric Sample.unlabelled)
  = Some "Unknown"%string
  ∧ Spec.normalize_category (Product.category Sample.unlabelled) = None.
Proof. split; reflexivity. Qed.

(** C5, as amended.  A missing category becomes "Unknown".  A present value
    is stripped of surrounding white space; when the lower-cased result is
    one of electronics, sports, office supplies, office_supplies the category
    is the canonical spelling, otherwise it is the stripped value in title
    case.  A missing product name becomes "Unknown Product". *)
Theorem standardize_category_cases :
  standardize_category None = "Unknown"%string
  ∧ (∀ c : string,
      let k := Text.lower (Text.strip c) in
      (k = "electronics"%string →
         standardize_category (Some c) = "Electronics"%string)
      ∧ (k = "sports"%string → standardize_category (Some c) = "Sports"%string)
      ∧ (k = "office supplies"%string ∨ k = "office_supplies"%string →
         standardize_category (Some c) = "Office Supplies"%string)
      ∧ (k ∉ Spec.canonical_keys →
         standardize_category (Some c) = Text.title (Text.strip c)))
  ∧ (∀ (to_numeric : string → option Z) (r : RawProduct),
      Product.product_name (repair_product to_numeric r)
      = Some (default "Unknown Product"%string (Product.product_name r))
      ∧ Product.category (repair_product to_numeric r)
        = Some (standardize_category (Product.category r))).
Proof.
  split; [reflexivity|]. split.
  - intros c k. subst k. unfold standardize_category.
    repeat split.
    + intros ->. reflexivity.
    + intros ->. reflexivity.
    + intros [-> | ->]; reflexivity.
    + intros Hk. unfold Spec.canonical_keys in Hk.
      rewrite !elem_of_cons, elem_of_nil in Hk.
      unfold category_mapping, dict_get.
      rewrite (eqb_upper_key_lower "ELECTRONICS" _ _ _ eq_refl eq_refl).
      rewrite (eqb_upper_key_lower "SPORTS" _ _ _ eq_refl eq_refl).
      rewrite (eqb_upper_key_lower "OFFICE SUPPLIES" _ _ _ eq_refl eq_refl).
      set (k := Text.lower (Text.strip c)) in *.
      repeat match goal with
             | |- context [String.eqb ?a k] =>
                 destruct (String.eqb_spec a k) as [Heq|_];
                 [exfalso; apply Hk; rewrite <-Heq; tauto|]
             end.
      reflexivity.
  - intros to_numeric r. split; [|reflexivity].
    simpl. by destruct (Product.product_name r).
Qed.

(** C5 as amended, at "  SPORTS " and at "gadgets". *)
Lemma standardize_category_cases_witness :
  standardize_category (Some "  SPORTS "%string) = "Sports"%string
  ∧ standardize_category (Some "gadgets"%string) = "Gadgets"%string.
Proof.
  destruct standardize_category_cases as (_ & H & _). split.
  - destruct (H "  SPORTS "%string) as (_ & Hsports & _).
    apply Hsports. reflexivity.
  - destruct (H "gadgets"%string) as (_ & _ & _ & Hother).
    apply Hother. apply (bool_decide_unpack _). vm_compute. exact I.
Defined.

(** *** Dates *)

(** C6 fails as stated: a date written without zero padding is accepted. *)
Lemma unpadded_date_accepted :
  validate_date (Some "2024-1-5"%string) = true
  ∧ Spec.is_valid_date (Some "2024-1-5"%string) = false.
Proof. split; vm_compute; reflexivity. Qed.

(** C6, as amended.  The validator rejects a missing and an empty value, and
    accepts a text exactly when it is a four-digit year from 0001 to 9999, a
    hyphen, a month from 1 to 12 written with or without a leading zero, a
    hyphen, and a day that the month of that year has, written with or
    without a leading zero or, when below 10, after a space.  A day the
    month does not have, as in 2023-02-30, is rejected. *)
Theorem validate_date_accepts_exactly :
  validate_date None = false
  ∧ validate_date (Some ""%string) = false
  ∧ validate_date (Some "2023-02-30"%string) = false
  ∧ ∀ s : string,
      validate_date (Some s) = true
      ↔ ∃ y m d M D,
          1 ≤ y ≤ 9999 ∧ 1 ≤ m ≤ 12 ∧ 1 ≤ d ≤ Strptime.days_in_month y m
          ∧ M ∈ Render.month_texts m ∧ D ∈ Render.day_texts d
          ∧ s = Render.pad4 y +:+ "-" +:+ M +:+ "-" +:+ D.
Proof.
  split; [reflexivity|]. split; [reflexivity|].
  split; [vm_compute; reflexivity|].
  intros s. unfold validate_date, Strptime.strptime. split.
  - destruct (String.eqb s "") eqn:Hs; [done|].
    destruct (Strptime.format_regex s) as [|[[[y m] d] rest] others] eqn:Hf;
      [done|].
    destruct (String.eqb_spec rest "") as [->|?]; [|done].
    destruct (Strptime.date_ok y m d) eqn:Hok; [|done]. intros _.
    apply date_ok_spec in Hok as (Hy & Hm & Hd).
    assert (Hin : ((y, m, d), ""%string) ∈ Strptime.format_regex s)
      by (rewrite Hf; left).
    apply format_regex_inv in Hin as (_ & _ & _ & M & D & HM & HD & ->).
    exists y, m, d, M, D. repeat split; try done; try lia.
    by rewrite append_nil_r.
  - intros (y & m & d & M & D & Hy & Hm & Hd & HM & HD & ->).
    pose proof (days_in_month_le y m).
    destruct (format_regex_rendered y m d M D) as [others ->];
      try done; try lia.
    change (String.eqb (Render.pad4 y +:+ "-" +:+ M +:+ "-" +:+ D) "")
      with false.
    cbn [String.eqb].
    replace (Strptime.date_ok y m d) with true; [done|].
    symmetry. apply date_ok_spec. lia.
Qed.

(** *** Addresses *)

(** C7, on the failing input: the address "a@b.co" followed by a line feed is
    accepted, although the text as a whole does not have the shape
    local@domain.tld. *)
Theorem address_with_final_newline_accepted :
  validate_email (Some Sample.address_with_newline) = true
  ∧ Spec.email_shape Sample.address_with_newline = false
  ∧ validate_email None = false
  ∧ validate_email (Some ""%string) = false.
Proof. repeat split; vm_compute; reflexivity. Qed.

(** * Further properties *)

(** ** The integrity checker and the cleaners *)

Lemma drop_duplicates_from_NoDup {A K} `{EqDecision K} (key : A → K)
    (seen : list K) (l : list A) :
  NoDup (key <$> drop_duplicates_from key seen l)
  ∧ ∀ k, k ∈ (key <$> drop_duplicates_from key seen l) → k ∉ seen.
Proof.
  revert seen. induction l as [|x l IH]; intros seen; simpl.
  - split; [constructor|]. intros k Hk. by apply elem_of_nil in Hk.
  - case_bool_decide as Hx.
    + apply IH.
    + destruct (IH (key x :: seen)) as [Hnd Hout]. split.
      * rewrite fmap_cons. constructor; [|done].
        intros Hin. apply Hout in Hin. apply Hin. left.
      * intros k Hk. rewrite fmap_cons in Hk.
        apply elem_of_cons in Hk as [->|Hk]; [done|].
        apply Hout in Hk. intros Hs. apply Hk. by right.
Qed.

Lemma list_filter_none {A} (f : A → bool) (l : list A) :
  (∀ x, x ∈ l → f x = false) → List.filter f l = [].
Proof.
  induction l as [|x l IH]; [done|]. intros Hall. simpl.
  rewrite (Hall x) by left. apply IH. intros y Hy. apply Hall. by right.
Qed.

Section CleanerProperties.

Variable to_datetime : string → option Timestamp.
Variable to_numeric : string → option Z.

(** X1. The four counts of the integrity report: [valid_transactions] is the
    number of rows returned and [total_transactions] the number received; a
    row orphaned on both sides is counted in both orphan counts, so each
    orphan count plus the valid count stays within the total, and the total
    is at most the sum of the three. *)
Theorem integrity_report_counts
    (customers_df : list CleanCustomer)
    (transactions_df : list CleanTransaction)
    (products_df : list CleanProduct) :
  let result :=
    validate_data_integrity customers_df transactions_df products_df in
  let report := result.2 in
  valid_transactions report = length result.1
  ∧ total_transactions report = length transactions_df
  ∧ (valid_transactions report + orphaned_customer_transactions report
     ≤ total_transactions report)%nat
  ∧ (valid_transactions report + orphaned_product_transactions report
     ≤ total_transactions report)%nat
  ∧ (total_transactions report
     ≤ valid_transactions report + orphaned_customer_transactions report
       + orphaned_product_transactions report)%nat.
Proof.
  unfold validate_data_integrity. cbn [fst snd valid_transactions
    total_transactions orphaned_customer_transactions
    orphaned_product_transactions].
  split; [done|]. split; [done|].
  set (cs := list_to_set _). set (ps := list_to_set _).
  induction transactions_df as [|t l IH]; [simpl; lia|].
  rewrite !filter_cons. cbn [length].
  destruct (isin (Transaction.customer_id t) cs),
    (isin (Transaction.product_id t) ps); simpl;
    repeat (destruct (decide _) as [?|?]; try done); cbn [length]; lia.
Qed.

(** X2. Checking integrity a second time, against the same customers and
    products, returns the same transactions and reports no orphan. *)
Theorem integrity_check_idempotent
    (customers_df : list CleanCustomer)
    (transactions_df : list CleanTransaction)
    (products_df : list CleanProduct) :
  let valid :=
    (validate_data_integrity customers_df transactions_df products_df).1 in
  validate_data_integrity customers_df valid products_df
  = (valid,
     {| orphaned_customer_transactions := 0;
        orphaned_product_transactions := 0;
        valid_transactions := length valid;
        total_transactions := length valid |}).
Proof.
  unfold validate_data_integrity. cbn [fst].
  set (cs := list_to_set _). set (ps := list_to_set _).
  set (valid := filter _ transactions_df).
  assert (Hall : ∀ t, t ∈ valid →
            isin (Transaction.customer_id t) cs = true
            ∧ isin (Transaction.product_id t) ps = true).
  { intros t Ht. apply list_elem_of_filter in Ht as [Ht _].
    by apply andb_true_iff in Ht. }
  clearbody valid.
  rewrite filter_all; cycle 1.
  { intros t Ht. destruct (Hall t Ht) as [-> ->]. done. }
  rewrite !filter_none; [done|..].
  - intros t Ht. destruct (Hall t Ht) as [_ ->]. done.
  - intros t Ht. destruct (Hall t Ht) as [-> _]. done.
Qed.

Lemma clean_customers_data_elem (df : list RawCustomer)
    (out : list CleanCustomer) (r : CleanCustomer) :
  clean_customers_data to_datetime df = Some out →
  r ∈ out →
  validate_email (Customer.email r) = true
  ∧ is_Some (Customer.first_name r)
  ∧ is_Some (Customer.last_name r)
  ∧ is_Some (Customer.email r)
  ∧ is_Some (Customer.registration_date r).
Proof.
  intros ->%clean_customers_data_Some H.
  apply list_elem_of_filter in H as [Hd H].
  apply list_elem_of_fmap in H as (r1 & -> & H).
  apply list_elem_of_fmap in H as (r0 & -> & H).
  apply list_elem_of_filter in H as [He _]. simpl in *.
  unfold has_registration_date in Hd. apply bool_decide_eq_true in Hd.
  repeat split; try done.
  - by destruct (Customer.first_name r0).
  - by destruct (Customer.last_name r0).
  - destruct (Customer.email r0); [done|discriminate He].
Qed.

(** A row of the cleaned transactions has a parsed date, a positive quantity
    and a positive amount, and the transaction, customer and product ids of
    a row of the file. *)
Lemma clean_transactions_data_elem (df : list RawTransaction)
    (out : list CleanTransaction) (r : CleanTransaction) :
  clean_transactions_data to_datetime df = Some out →
  r ∈ out →
  0 < Transaction.quantity r ∧ 0 < Transaction.amount r
  ∧ is_Some (Transaction.transaction_date r)
  ∧ ∃ r0, r0 ∈ df
          ∧ Transaction.transaction_id r = Transaction.transaction_id r0
          ∧ Transaction.customer_id r = Transaction.customer_id r0
          ∧ Transaction.product_id r = Transaction.product_id r0.
Proof.
  intros (_ & parsed & Hm & ->)%clean_transactions_data_Some Hr.
  apply list_elem_of_filter in Hr as [Hp Hr].
  unfold positive_row in Hp. apply andb_true_iff in Hp as [Hq Ha].
  apply Z.ltb_lt in Hq, Ha. split; [done|]. split; [done|].
  assert (Hin : r ∈ parsed).
  { eapply sublist_subseteq;
      [apply (drop_duplicates_from_sublist duplicate_key [] parsed)|done]. }
  apply mapM_Some in Hm.
  apply list_elem_of_lookup in Hin as [i Hi].
  destruct (Forall2_lookup_r _ _ _ _ _ Hm Hi) as (r0 & Hi0 & Hr0).
  apply list_elem_of_lookup_2, list_elem_of_filter in Hi0 as [_ Hi0].
  unfold parse_transaction_date in Hr0.
  destruct (Transaction.transaction_date r0 ≫= to_datetime); [|done].
  simpl in Hr0. injection Hr0 as <-. split; [by eexists|].
  by exists r0.
Qed.

Lemma clean_products_data_elem (df : list RawProduct) (r : CleanProduct) :
  r ∈ clean_products_data to_numeric df →
  price_positive r = true
  ∧ is_Some (Product.product_name r)
  ∧ is_Some (Product.category r)
  ∧ is_Some (Product.price r).
Proof.
  unfold clean_products_data. intros H.
  apply list_elem_of_filter in H as [Hp H].
  apply list_elem_of_fmap in H as (r0 & -> & _).
  split; [done|]. unfold price_positive in Hp. simpl in *. split; [|split].
  - by destruct (Product.product_name r0).
  - by eexists.
  - by destruct (Product.price r0 ≫= to_numeric).
Qed.

(** X3. Every row the customer cleaner returns has an address that
    [validate_email] accepts and meets the NOT NULL constraints that
    [create_schema] declares for customers. *)
Theorem cleaned_customers_meet_row_constraints (df : list RawCustomer)
    (out : list CleanCustomer) (r : CleanCustomer) :
  clean_customers_data to_datetime df = Some out →
  r ∈ out →
  validate_email (Customer.email r) = true
  ∧ row_checks_hold customers_ddl r = true.
Proof.
  intros Hout Hr.
  destruct (clean_customers_data_elem df out r Hout Hr)
    as (He & [? Hf] & [? Hl] & [? Hm] & [? Hd]).
  split; [done|]. unfold row_checks_hold, customers_ddl. cbn [forallb].
  by rewrite Hf, Hl, Hm, Hd.
Qed.

(** X4. When the transaction cleaner returns, every row of its output has a
    parsed date, a quantity above zero and an amount above zero, so it meets
    the two CHECK constraints that [create_schema] declares for
    transactions, and no two rows agree on customer, product, date and
    amount.  (A row may still lack a customer or a product id.) *)
Theorem cleaned_transactions_meet_row_constraints (df : list RawTransaction)
    (out : list CleanTransaction) :
  clean_transactions_data to_datetime df = Some out →
  (∀ r, r ∈ out →
     is_Some (Transaction.transaction_date r)
     ∧ 0 < Transaction.quantity r ∧ 0 < Transaction.amount r)
  ∧ NoDup (duplicate_key <$> out).
Proof.
  intros Hclean. split.
  - intros r Hr.
    destruct (clean_transactions_data_elem df out r Hclean Hr)
      as (Hq & Ha & Hd & _).
    done.
  - apply clean_transactions_data_Some in Hclean as (_ & parsed & _ & ->).
    eapply sublist_NoDup;
      [apply (drop_duplicates_from_NoDup duplicate_key [] parsed)|].
    apply fmap_sublist, sublist_filter.
Qed.

(** X5. Every row the product cleaner returns meets the NOT NULL and CHECK
    constraints that [create_schema] declares for products: a name, a
    category, and a price that is a number above zero. *)
Theorem cleaned_products_meet_row_constraints (df : list RawProduct)
    (r : CleanProduct) :
  r ∈ clean_products_data to_numeric df →
  row_checks_hold products_ddl r = true.
Proof.
  intros Hr.
  apply clean_products_data_elem in Hr as (Hp & [? Hn] & [? Hc] & [? Hv]).
  unfold row_checks_hold, products_ddl. cbn [forallb].
  unfold price_positive in Hp. rewrite Hv in Hp.
  rewrite Hn, Hc, Hv. simpl. by rewrite Hp.
Qed.

End CleanerProperties.

(** ** The aggregate *)

Lemma sum_amount_pos (ts : list CleanTransaction) :
  ts ≠ [] → (∀ x, x ∈ ts → 0 < Transaction.amount x) → 0 < sum_amount ts.
Proof.
  induction ts as [|t ts IH]; [done|]. intros _ Hpos. simpl.
  assert (0 < Transaction.amount t) by (apply Hpos; left).
  destruct ts as [|t' ts'].
  - simpl. lia.
  - assert (0 < sum_amount (t' :: ts')).
    { apply IH; [done|]. intros x Hx. apply Hpos. by right. }
    unfold sum_amount in *. lia.
Qed.

Lemma of_customer_nonempty (c : option Z) (ts : list CleanTransaction) :
  c ∈ Transaction.customer_id <$> ts → of_customer c ts ≠ [].
Proof.
  intros Hin. apply list_elem_of_fmap in Hin as (t & -> & Ht).
  intros Hnil.
  assert (Hin : t ∈ of_customer (Transaction.customer_id t) ts)
    by (by apply list_elem_of_filter).
  rewrite Hnil in Hin. by apply elem_of_nil in Hin.
Qed.

Lemma select_group_by_customer_nonempty (ts : list CleanTransaction) :
  ts ≠ [] → select_group_by_customer ts ≠ [].
Proof.
  destruct ts as [|t ts]; [done|]. intros _ Hnil.
  unfold select_group_by_customer, group_keys in Hnil.
  apply fmap_nil_inv, app_eq_nil in Hnil as [Hnull Hkeys].
  apply fmap_nil_inv in Hkeys.
  rewrite fmap_cons in Hnull, Hkeys.
  destruct (Transaction.customer_id t) as [k|].
  - assert (Hin : k ∈ merge_sort Z.le
                        (remove_dups (omap id (Some k
                           :: (Transaction.customer_id <$> ts)))))
      by (apply elem_of_sorted_keys; left).
    rewrite Hkeys in Hin. by apply elem_of_nil in Hin.
  - rewrite bool_decide_true in Hnull by left. done.
Qed.

(** X9. After [calculate_customer_revenue], every customer id that a row of
    [transactions] carries has one row in [customer_revenue], with the sum
    of the customer's amounts and the number of the customer's transactions,
    which is at least one, and with a positive total when all amounts are
    positive.  When every transaction carries a customer id, the row of
    every other customer is what it was before, and calculating again
    changes nothing. *)
Theorem aggregate_rows (db db' : database) (t : Sql.table CleanTransaction) :
  transactions db = Some t →
  calculate_customer_revenue db = Some db' →
  (∀ c, Some c ∈ Transaction.customer_id <$> Sql.rows t →
     ∃ total count,
       customer_revenue db' ≫= (.!! c) = Some (total, count)
       ∧ total = sum_amount (of_customer (Some c) (Sql.rows t))
       ∧ count = Z.of_nat (length (of_customer (Some c) (Sql.rows t)))
       ∧ 1 ≤ count
       ∧ ((∀ x, x ∈ Sql.rows t → 0 < Transaction.amount x) → 0 < total))
  ∧ (None ∉ Transaction.customer_id <$> Sql.rows t →
     (∀ c, Some c ∉ Transaction.customer_id <$> Sql.rows t →
        customer_revenue db' ≫= (.!! c) = customer_revenue db ≫= (.!! c))
     ∧ calculate_customer_revenue db' = Some db').
Proof.
  intros Ht Hc. split.
  - intros c Hin. eexists _, _. split.
    { exact (calculate_customer_revenue_row db db' t c Ht Hc Hin). }
    split; [done|]. split; [done|].
    pose proof (of_customer_nonempty (Some c) _ Hin) as Hne. split.
    + destruct (of_customer (Some c) (Sql.rows t)); [done|]. simpl. lia.
    + intros Hpos. apply sum_amount_pos; [done|].
      intros x Hx. apply Hpos. by apply list_elem_of_filter in Hx as [_ ?].
  - intros Hnone. revert Hc. unfold calculate_customer_revenue.
    rewrite Ht. simpl.
    destruct (customer_revenue db) as [cr|]; simpl; [|done].
    intros [= <-]. simpl. split.
    + intros c Hnin. rewrite lookup_revenue_after.
      by rewrite !decide_False by done.
    + by rewrite insert_or_replace_twice.
Qed.

(** ** The pipeline and the validation of its output *)

Lemma validate_email_contains_at (e : option string) :
  validate_email e = true → ∃ s, e = Some s ∧ Text.contains "@" s = true.
Proof.
  destruct e as [s|]; [|done]. intros H. exists s. split; [done|].
  destruct (Text.contains "@" s) eqn:Hc; [done|].
  apply validate_email_needs_at in Hc. congruence.
Qed.

Section PipelineProperties.

Variable customers_to_datetime : string → option Timestamp.
Variable transactions_to_datetime : string → option Timestamp.
Variable to_numeric : string → option Z.
Variable customers_accepted : list CleanCustomer → bool.
Variable products_accepted : list CleanProduct → bool.
Variable transactions_accepted : list CleanTransaction → bool.

(** What a successful run leaves in the store. *)
Lemma run_eq (db : database) (customers_df : list RawCustomer)
    (transactions_df : list RawTransaction) (products_df : list RawProduct)
    (db' : database) :
  run customers_to_datetime transactions_to_datetime to_numeric
    customers_accepted products_accepted transactions_accepted db
    customers_df transactions_df products_df = Some db' →
  ∃ cleaned_customers cleaned_transactions,
    clean_customers_data customers_to_datetime customers_df
    = Some cleaned_customers
    ∧ clean_transactions_data transactions_to_datetime transactions_df
      = Some cleaned_transactions
    ∧ db' = mk_database
        (Some (Sql.mk_table [] ∅ cleaned_customers))
        (Some (Sql.mk_table [] ∅ (clean_products_data to_numeric products_df)))
        (Some (Sql.mk_table [] ∅
           (validate_data_integrity cleaned_customers cleaned_transactions
              (clean_products_data to_numeric products_df)).1))
        (Some (insert_or_replace (default ∅ (customer_revenue db))
           (select_group_by_customer
              (validate_data_integrity cleaned_customers cleaned_transactions
                 (clean_products_data to_numeric products_df)).1))).
Proof.
  unfold run, transform_data.
  destruct (clean_customers_data _ _) as [cs|]; simpl; [|done].
  destruct (clean_transactions_data _ _) as [ts|]; simpl; [|done].
  rewrite load_data_eq. destruct (_ && _); [|done].
  intros [= <-]. by exists cs, ts.
Qed.

(** X11. A run raises when the customers file has no row, when the
    transactions file has no row, and when a transaction has a date that
    [validate_date] accepts and [pd.to_datetime] cannot read. *)
Theorem run_raises_on_empty_or_unparsed (db : database)
    (customers_df : list RawCustomer) (transactions_df : list RawTransaction)
    (products_df : list RawProduct) :
  customers_df = []
  ∨ transactions_df = []
  ∨ (∃ r, r ∈ transactions_df
          ∧ validate_date (Transaction.transaction_date r) = true
          ∧ Transaction.transaction_date r ≫= transactions_to_datetime = None) →
  run customers_to_datetime transactions_to_datetime to_numeric
    customers_accepted products_accepted transactions_accepted db
    customers_df transactions_df products_df = None.
Proof.
  intros Hcause.
  destruct (run _ _ _ _ _ _ db customers_df transactions_df products_df)
    as [db'|] eqn:Hrun; [exfalso|done].
  apply run_eq in Hrun as (cs & ts & Hcs & Hts & _).
  destruct Hcause as [->| [->|(r & Hr & Hv & Hnone)]]; [done|done|].
  apply clean_transactions_data_Some in Hts as (_ & parsed & Hm & _).
  assert (Hex : Exists
            (λ x, parse_transaction_date transactions_to_datetime x = None)
            (filter (λ r, validate_date (Transaction.transaction_date r) = true)
               transactions_df)).
  { apply Exists_exists. exists r. split; [by apply list_elem_of_filter|].
    unfold parse_transaction_date. by rewrite Hnone. }
  apply mapM_None in Hex. congruence.
Qed.

(** X12. After a successful run the four tables exist and every stored
    transaction carries a customer id that occurs in the stored customers
    and a product id that occurs in the stored products, a missing id
    counting as an id: the stored rows are closed under the two references,
    although SQLite does not check them. *)
Theorem stored_rows_reference_each_other (db db' : database)
    (customers_df : list RawCustomer) (transactions_df : list RawTransaction)
    (products_df : list RawProduct) :
  run customers_to_datetime transactions_to_datetime to_numeric
    customers_accepted products_accepted transactions_accepted db
    customers_df transactions_df products_df = Some db' →
  ∃ tc tp tt cr,
    customers db' = Some tc ∧ products db' = Some tp
    ∧ transactions db' = Some tt ∧ customer_revenue db' = Some cr
    ∧ ∀ t, t ∈ Sql.rows tt →
        Transaction.customer_id t ∈ (Customer.customer_id <$> Sql.rows tc)
        ∧ Transaction.product_id t ∈ (Product.product_id <$> Sql.rows tp).
Proof.
  intros Hrun. apply run_eq in Hrun as (cs & cleaned & Hcs & Hclean & ->).
  eexists _, _, _, _. do 4 (split; [reflexivity|]).
  cbn [Sql.rows].
  intros t Ht. unfold validate_data_integrity in Ht. cbn [fst] in Ht.
  apply list_elem_of_filter in Ht as [Ht _].
  apply andb_true_iff in Ht as [Hc Hp].
  by apply isin_spec in Hc, Hp.
Qed.

(** X13. On the store that a successful run leaves, the two data-quality
    checks of [validate_output_data] never fire: no stored address lacks an
    at-sign and no stored amount is zero or negative.  The validation either
    passes, returning the four row counts, or stops at an empty table. *)
Theorem pipeline_output_passes_data_checks (db db' : database)
    (customers_df : list RawCustomer) (transactions_df : list RawTransaction)
    (products_df : list RawProduct) :
  run customers_to_datetime transactions_to_datetime to_numeric
    customers_accepted products_accepted transactions_accepted db
    customers_df transactions_df products_df = Some db' →
  (∃ table, Dag.validate_output_data (Some db') = inl (Dag.TableIsEmpty table))
  ∨ (∃ tc tp tt cr,
       customers db' = Some tc ∧ products db' = Some tp
       ∧ transactions db' = Some tt ∧ customer_revenue db' = Some cr
       ∧ Dag.validate_output_data (Some db')
         = inr (Dag.mk_table_counts (length (Sql.rows tc))
                  (length (Sql.rows tp)) (length (Sql.rows tt)) (size cr))).
Proof.
  intros Hrun. apply run_eq in Hrun as (cs & cleaned & Hcs & Hclean & ->).
  set (ps := clean_products_data to_numeric products_df).
  set (ts := (validate_data_integrity cs cleaned ps).1).
  unfold Dag.validate_output_data, select_count, select_count_revenue.
  cbn [customers products transactions customer_revenue fmap option_fmap
       option_map Sql.rows default].
  destruct cs as [|c0 cs'] eqn:Hcseq; [left; by eexists|].
  destruct ps as [|p0 ps'] eqn:Hps; [left; by eexists|].
  destruct ts as [|t0 ts'] eqn:Hts; [left; by eexists|].
  cbn [length Dag.count_table].
  assert (Hsize : size (insert_or_replace (default ∅ (customer_revenue db))
                          (select_group_by_customer (t0 :: ts'))) ≠ 0%nat).
  { apply map_size_non_empty_iff, insert_or_replace_nonempty.
    by apply select_group_by_customer_nonempty. }
  destruct (size _) as [|n] eqn:Hn; [done|]. cbn [Dag.count_table].
  right. eexists _, _, _, _. do 4 (split; [reflexivity|]).
  rewrite list_filter_none; cycle 1.
  { intros r Hr.
    destruct (clean_customers_data_elem _ _ _ r Hcs Hr) as (He & _).
    apply validate_email_contains_at in He as (s & Hs & Hat).
    unfold email_not_like_at. by rewrite Hs, Hat. }
  rewrite list_filter_none; cycle 1.
  { intros t Ht. rewrite <-Hts in Ht. unfold ts, validate_data_integrity in Ht.
    cbn [fst] in Ht. apply list_elem_of_filter in Ht as [_ Ht].
    destruct (clean_transactions_data_elem _ _ _ t Hclean Ht) as (_ & Ha & _).
    apply Z.leb_gt. lia. }
  cbn [length]. rewrite Hn. reflexivity.
Qed.

(** X17. After a successful run the customers, products and transactions
    tables carry no constraint and no index, whatever the store was before.
    [create_schema] then puts the five indexes back and nothing else: the
    rows stay and the constraints of the declared tables do not return. *)
Theorem run_leaves_tables_unconstrained (db db' : database)
    (customers_df : list RawCustomer) (transactions_df : list RawTransaction)
    (products_df : list RawProduct) :
  run customers_to_datetime transactions_to_datetime to_numeric
    customers_accepted products_accepted transactions_accepted db
    customers_df transactions_df products_df = Some db' →
  ∃ tc tp tt,
    customers db' = Some tc ∧ products db' = Some tp
    ∧ transactions db' = Some tt
    ∧ Sql.constraints tc = [] ∧ Sql.indexes tc = ∅
    ∧ Sql.constraints tp = [] ∧ Sql.indexes tp = ∅
    ∧ Sql.constraints tt = [] ∧ Sql.indexes tt = ∅
    ∧ create_schema db'
      = mk_database
          (Some (Sql.mk_table [] {[ "idx_customers_email"%string ]}
                   (Sql.rows tc)))
          (Some (Sql.mk_table [] {[ "idx_products_category"%string ]}
                   (Sql.rows tp)))
          (Some (Sql.mk_table []
                   {[ "idx_transactions_customer_id"%string;
                      "idx_transactions_product_id"%string;
                      "idx_transactions_date"%string ]}
                   (Sql.rows tt)))
          (customer_revenue db').
Proof.
  intros Hrun. apply run_eq in Hrun as (cs & cleaned & _ & _ & ->).
  eexists _, _, _. do 9 (split; [reflexivity|]).
  unfold create_schema, Sql.create_index. simpl. f_equal; f_equal; f_equal.
  all: set_solver.
Qed.

(** X18. When a run succeeds and stores no transaction without a customer
    id, a second run on the same three tables also succeeds and leaves
    [customer_revenue] exactly as the first run left it. *)
Theorem rerun_keeps_revenue_of_named_customers (db db1 : database)
    (customers_df : list RawCustomer) (transactions_df : list RawTransaction)
    (products_df : list RawProduct) :
  run customers_to_datetime transactions_to_datetime to_numeric
    customers_accepted products_accepted transactions_accepted db
    customers_df transactions_df products_df = Some db1 →
  (∀ tt t, transactions db1 = Some tt → t ∈ Sql.rows tt →
           is_Some (Transaction.customer_id t)) →
  ∃ db2,
    run customers_to_datetime transactions_to_datetime to_numeric
      customers_accepted products_accepted transactions_accepted db1
      customers_df transactions_df products_df = Some db2
    ∧ customer_revenue db2 = customer_revenue db1.
Proof.
  intros Hrun Hnamed. pose proof Hrun as Heq.
  apply run_eq in Heq as (cs & cleaned & Hcs & Hclean & ->).
  revert Hrun. unfold run, transform_data. rewrite Hcs, Hclean. simpl.
  rewrite !load_data_eq. destruct (_ && _); [|done]. intros _.
  eexists. split; [reflexivity|]. simpl. f_equal.
  apply insert_or_replace_twice. intros Hin.
  apply list_elem_of_fmap in Hin as (t & Hnone & Ht).
  destruct (Hnamed _ t eq_refl Ht) as [c Hc]. simpl in *. congruence.
Qed.

End PipelineProperties.

(** ** Category normalisation *)

Section TitleCase.
Import Text.

Lemma to_lower_idem_cases (c : ascii) :
  to_lower (to_lower c) = to_lower c ∧ to_lower (to_upper c) = to_lower c
  ∧ to_upper (to_upper c) = to_upper c
  ∧ is_alpha (to_lower c) = is_alpha c ∧ is_alpha (to_upper c) = is_alpha c
  ∧ is_space (to_lower c) = is_space c ∧ is_space (to_upper c) = is_space c
  ∧ (is_alpha c = true → is_space c = false).
Proof.
  destruct c as [[] [] [] [] [] [] [] []]; vm_compute; repeat split; congruence.
Qed.

Lemma lower_title_from (b : bool) (s : string) : lower (title_from b s) = lower s.
Proof.
  revert b. induction s as [|c s IH]; intros b; [done|].
  cbn [title_from].
  destruct (to_lower_idem_cases c) as (H1 & H2 & _).
  destruct (is_alpha c); cbn [lower]; rewrite IH; [|done].
  destruct b; by rewrite ?H1, ?H2.
Qed.

Lemma title_from_idem (b : bool) (s : string) :
  title_from b (title_from b s) = title_from b s.
Proof.
  revert b. induction s as [|c s IH]; intros b; [done|].
  cbn [title_from].
  destruct (to_lower_idem_cases c) as (H1 & _ & H3 & H4 & H5 & _).
  destruct (is_alpha c) eqn:Ha; cbn [title_from].
  - destruct b; rewrite ?H4, ?H5, ?H1, ?H3, IH; done.
  - by rewrite Ha, IH.
Qed.

Lemma length_lstrip (s : string) : (String.length (lstrip s) ≤ String.length s)%nat.
Proof.
  induction s as [|c s IH]; [done|]. simpl.
  destruct (is_space c); simpl; lia.
Qed.

Lemma lstrip_fixed (s : string) :
  lstrip s = s ↔ match s with
                 | EmptyString => True
                 | String c _ => is_space c = false
                 end.
Proof.
  destruct s as [|c s]; [done|]. simpl.
  destruct (is_space c) eqn:Hc; split; try done.
  intros H. pose proof (length_lstrip s) as Hl. rewrite H in Hl.
  simpl in Hl. lia.
Qed.

Lemma lstrip_idem (s : string) : lstrip (lstrip s) = lstrip s.
Proof.
  induction s as [|c s IH]; [done|]. simpl.
  destruct (is_space c) eqn:Hc; [done|]. simpl. by rewrite Hc.
Qed.

Lemma rstrip_idem (s : string) : rstrip (rstrip s) = rstrip s.
Proof.
  induction s as [|c s IH]; [done|]. simpl.
  destruct (rstrip s) as [|a r] eqn:Hr.
  - destruct (is_space c) eqn:Hc; [done|]. simpl. by rewrite Hc.
  - change (rstrip (String c (String a r)))
      with (match rstrip (String a r) with
            | EmptyString =>
                if is_space c then EmptyString else String c EmptyString
            | String x y => String c (String x y)
            end).
    by rewrite IH.
Qed.

Lemma lstrip_rstrip (s : string) : lstrip s = s → lstrip (rstrip s) = rstrip s.
Proof.
  intros H. apply lstrip_fixed in H. apply lstrip_fixed.
  destruct s as [|c s]; [done|]. simpl.
  destruct (rstrip s); [by rewrite H|done].
Qed.

Lemma title_from_nonempty (b : bool) (s : string) :
  title_from b s = ""%string → s = ""%string.
Proof. destruct s as [|c s]; [done|]. simpl. by destruct (is_alpha c). Qed.

Lemma lstrip_title_from (b : bool) (s : string) :
  lstrip s = s → lstrip (title_from b s) = title_from b s.
Proof.
  intros H. apply lstrip_fixed in H. apply lstrip_fixed.
  destruct s as [|c s]; [done|]. simpl.
  destruct (to_lower_idem_cases c) as (_ & _ & _ & _ & _ & H6 & H7 & _).
  destruct (is_alpha c); [|done]. destruct b; by rewrite ?H6, ?H7.
Qed.

Lemma rstrip_title_from (b : bool) (s : string) :
  rstrip s = s → rstrip (title_from b s) = title_from b s.
Proof.
  revert b. induction s as [|c s IH]; intros b; [done|].
  intros H. simpl in H.
  destruct (to_lower_idem_cases c) as (_ & _ & _ & _ & _ & H6 & H7 & H8).
  assert (Hhead : ∀ c', is_space c' = is_space c →
            ∀ r, rstrip r = r → (r = ""%string → is_space c = false) →
            rstrip (String c' r) = String c' r).
  { intros c' Hc' r Hr Hnil. simpl. rewrite Hr.
    destruct r; [|done]. by rewrite Hc', Hnil. }
  assert (Htail : ∀ b', rstrip (title_from b' s) = title_from b' s
                        ∧ (title_from b' s = ""%string → is_space c = false)).
  { intros b'. destruct (rstrip s) as [|a r] eqn:Hr.
    - destruct (is_space c) eqn:Hc; [done|]. injection H as <-.
      split; done.
    - injection H as H. split; [apply IH; congruence|].
      intros Hnil. apply title_from_nonempty in Hnil. congruence. }
  simpl. destruct (is_alpha c) eqn:Ha.
  - destruct (Htail true) as [Ht Hn].
    apply Hhead; [by destruct b|done|done].
  - destruct (Htail false) as [Ht Hn]. by apply Hhead.
Qed.

Lemma strip_fixed_parts (s : string) :
  lstrip (strip s) = strip s ∧ rstrip (strip s) = strip s.
Proof.
  unfold strip. split; [|apply rstrip_idem].
  apply lstrip_rstrip, lstrip_idem.
Qed.

Lemma strip_title_strip (s : string) : strip (title (strip s)) = title (strip s).
Proof.
  destruct (strip_fixed_parts s) as [Hl Hr].
  unfold strip at 1, title.
  rewrite lstrip_title_from by done. by apply rstrip_title_from.
Qed.

End TitleCase.

(** X14. On ASCII text, category normalisation is idempotent: normalising a
    normalised category gives it back. *)
Theorem standardize_category_idempotent (category : option string) :
  (∀ c, category = Some c → Text.all_chars is_ascii c = true) →
  standardize_category (Some (standardize_category category))
  = standardize_category category.
Proof.
  intros _.
  destruct category as [c|]; [|reflexivity].
  unfold standardize_category at 2 3.
  set (u := Text.strip c). set (k := Text.lower u).
  unfold category_mapping, dict_get.
  repeat match goal with
         | |- context [String.eqb ?a k] =>
             destruct (String.eqb a k) eqn:?; [reflexivity|]
         end.
  unfold standardize_category. subst u.
  rewrite strip_title_strip. unfold Text.title at 1 2.
  rewrite lower_title_from, title_from_idem. fold k.
  unfold category_mapping, dict_get.
  repeat match goal with
         | H : String.eqb ?a k = false |- context [String.eqb ?a k] =>
             rewrite H
         end.
  reflexivity.
Qed.

(** ** Input files *)

Ltac file_not_listed H :=
  repeat (apply elem_of_cons in H as [H|H]; [discriminate H|]);
  by apply elem_of_nil in H.

Ltac file_listed :=
  repeat first [apply list_elem_of_here | apply list_elem_of_further].

(** X16. The file check of the DAG passes exactly when the three files are
    there; [extract_data] returns frames exactly when the three files are
    there and each can be read, and then returns what was read; when the
    check fails it lists exactly the missing files, and the first of them is
    the file that [extract_data] reports as not found. *)
Theorem file_checks_agree (d : input_dir) :
  (check_input_files d = inr true
   ↔ ∀ f, file_exists d f = true)
  ∧ (∀ frames, extract_data d = inr frames
     ↔ customers_csv d = Readable frames.1.1
       ∧ transactions_csv d = Readable frames.1.2
       ∧ products_csv d = Readable frames.2)
  ∧ (∀ missing, check_input_files d = inl missing →
       (∀ f, f ∈ missing ↔ file_exists d f = false)
       ∧ ∃ f rest, missing = f :: rest
                   ∧ extract_data d = inl (FileNotFound f)).
Proof.
  split; [|split].
  - destruct d as [[| |c] [| |t] [| |p]]; split;
      try (intros _ f; by destruct f); try discriminate;
      try (intros _; reflexivity).
    all: intros H; first [ discriminate (H CustomersCsv)
                         | discriminate (H TransactionsCsv)
                         | discriminate (H ProductsCsv) ].
  - intros [[c t] p]. destruct d as [[| |c'] [| |t'] [| |p']]; simpl; split;
      try discriminate; try (intros (? & ? & ?); discriminate).
    + by intros [= -> -> ->].
    + by intros ([= ->] & [= ->] & [= ->]).
  - destruct d as [[| |c] [| |t] [| |p]].
    all: try (intros missing; discriminate).
    all: intros missing [= <-]; split; [|by eexists _, _].
    all: intros f; destruct f; cbn [file_exists csv_exists customers_csv
           transactions_csv products_csv];
         (split; [intros H; first [reflexivity | file_not_listed H]
                 |intros H; first [discriminate H | file_listed]]).
Qed.

(** ** Addresses *)

(** X15. [validate_email] accepts a text exactly when it is a non-empty
    local part of letters, digits and [._%+-], an at-sign, a non-empty domain
    of letters, digits, dots and hyphens, a dot and two or more letters, or
    such a text followed by one line feed; a text without an at-sign is
    rejected. *)
Theorem validate_email_accepts_exactly (s : string) :
  (validate_email (Some s) = true
   ↔ email_text s ∨ ∃ s', s = s' +:+ String "010" "" ∧ email_text s')
  ∧ (Text.contains "@" s = false → validate_email (Some s) = false).
Proof. split; [apply validate_email_iff|apply validate_email_needs_at]. Qed.

(** ** The further properties at the sample files *)

Lemma cleaned_customers_meet_row_constraints_witness :
  ∃ out r,
    clean_customers_data Parsers.to_datetime [Sample.alice; Sample.carol]
    = Some out
    ∧ r ∈ out
    ∧ validate_email (Customer.email r) = true
    ∧ row_checks_hold customers_ddl r = true.
Proof.
  assert (Hl : ∃ r rest,
            clean_customers_data Parsers.to_datetime
              [Sample.alice; Sample.carol] = Some (r :: rest))
    by (vm_compute; eauto).
  destruct Hl as (r & rest & Hl). exists (r :: rest), r.
  assert (Hin : r ∈ r :: rest) by left.
  split; [exact Hl|]. split; [exact Hin|].
  exact (cleaned_customers_meet_row_constraints Parsers.to_datetime _ _ _
           Hl Hin).
Defined.

Lemma cleaned_transactions_meet_row_constraints_witness :
  ∃ out,
    clean_transactions_data Parsers.to_datetime
      [Sample.purchase_alice; Sample.returned_item; Sample.purchase_carol]
    = Some out
    ∧ (∀ r, r ∈ out →
         is_Some (Transaction.transaction_date r)
         ∧ 0 < Transaction.quantity r ∧ 0 < Transaction.amount r)
    ∧ NoDup (duplicate_key <$> out).
Proof.
  eexists. split; [vm_compute; reflexivity|].
  apply (cleaned_transactions_meet_row_constraints Parsers.to_datetime
           [Sample.purchase_alice; Sample.returned_item;
            Sample.purchase_carol]).
  vm_compute. reflexivity.
Defined.

Lemma cleaned_products_meet_row_constraints_witness :
  ∃ r,
    r ∈ clean_products_data Parsers.to_numeric
          [Sample.unlabelled; Sample.widget]
    ∧ row_checks_hold products_ddl r = true.
Proof.
  assert (Hl : ∃ r rest,
            clean_products_data Parsers.to_numeric
              [Sample.unlabelled; Sample.widget] = r :: rest)
    by (vm_compute; eauto).
  destruct Hl as (r & rest & Hl). exists r.
  assert (Hin : r ∈ clean_products_data Parsers.to_numeric
                      [Sample.unlabelled; Sample.widget])
    by (rewrite Hl; left).
  split; [exact Hin|].
  exact (cleaned_products_meet_row_constraints Parsers.to_numeric _ _ Hin).
Defined.

Lemma aggregate_rows_witness :
  ∃ db' t,
    transactions Sample.loaded_store = Some t
    ∧ calculate_customer_revenue Sample.loaded_store = Some db'
    ∧ customer_revenue db' ≫= (.!! 1) = Some (2499, 2)
    ∧ calculate_customer_revenue db' = Some db'.
Proof.
  eexists _, _.
  assert (Ht : transactions Sample.loaded_store = Some _) by reflexivity.
  assert (Hc : calculate_customer_revenue Sample.loaded_store = Some _)
    by reflexivity.
  destruct (aggregate_rows _ _ _ Ht Hc) as (Hrows & Hnamed).
  split; [exact Ht|]. split; [exact Hc|]. split.
  - destruct (Hrows 1) as (total & count & Hrow & -> & -> & _).
    + apply (bool_decide_unpack _). vm_compute. exact I.
    + exact Hrow.
  - apply Hnamed. apply (bool_decide_unpack _). vm_compute. exact I.
Defined.

Lemma run_raises_on_empty_or_unparsed_witness :
  run_sample empty_database [Sample.alice] [] [Sample.widget] = None.
Proof.
  apply (run_raises_on_empty_or_unparsed Parsers.to_datetime
           Parsers.to_datetime Parsers.to_numeric Parsers.customers_accepted
           Parsers.products_accepted Parsers.transactions_accepted).
  right. left. reflexivity.
Defined.

Lemma stored_rows_reference_each_other_witness :
  ∃ db' tc tt,
    run_sample empty_database [Sample.alice; Sample.carol]
      [Sample.purchase_alice; Sample.purchase_carol] [Sample.widget]
    = Some db'
    ∧ customers db' = Some tc ∧ transactions db' = Some tt
    ∧ ∀ t, t ∈ Sql.rows tt →
        Transaction.customer_id t ∈ (Customer.customer_id <$> Sql.rows tc).
Proof.
  assert (Hrun : run_sample empty_database [Sample.alice; Sample.carol]
                   [Sample.purchase_alice; Sample.purchase_carol]
                   [Sample.widget] = Some _)
    by (vm_compute; reflexivity).
  destruct (stored_rows_reference_each_other _ _ _ _ _ _ _ _ _ _ _ Hrun)
    as (tc & tp & tt & cr & Hc & _ & Ht & _ & Href).
  eexists _, tc, tt. split; [exact Hrun|]. split; [exact Hc|].
  split; [exact Ht|]. intros t Hin. exact (proj1 (Href t Hin)).
Defined.

Lemma pipeline_output_passes_data_checks_witness :
  ∃ db',
    run_sample empty_database [Sample.alice; Sample.carol]
      [Sample.purchase_alice; Sample.purchase_carol] [Sample.widget]
    = Some db'
    ∧ Dag.validate_output_data (Some db')
      = inr (Dag.mk_table_counts 2 1 2 2).
Proof.
  assert (Hrun : run_sample empty_database [Sample.alice; Sample.carol]
                   [Sample.purchase_alice; Sample.purchase_carol]
                   [Sample.widget] = Some _)
    by (vm_compute; reflexivity).
  eexists. split; [exact Hrun|].
  destruct (pipeline_output_passes_data_checks _ _ _ _ _ _ _ _ _ _ _ Hrun)
    as [[table He]|(tc & tp & tt & cr & _ & _ & _ & _ & _)].
  - vm_compute in He. discriminate He.
  - vm_compute. reflexivity.
Defined.

Lemma standardize_category_idempotent_witness :
  standardize_category
    (Some (standardize_category (Some " home  decor "%string)))
  = standardize_category (Some " home  decor "%string).
Proof.
  apply standardize_category_idempotent.
  intros c [= <-]. vm_compute. reflexivity.
Defined.

Lemma run_leaves_tables_unconstrained_witness :
  ∃ db' tc,
    run_sample Sample.loaded_store [Sample.alice; Sample.bob]
      [Sample.purchase_alice] [Sample.widget] = Some db'
    ∧ customers db' = Some tc
    ∧ Sql.constraints tc = [] ∧ Sql.indexes tc = ∅
    ∧ customers (create_schema db')
      = Some (Sql.mk_table [] {[ "idx_customers_email"%string ]}
                (Sql.rows tc)).
Proof.
  assert (Hrun : run_sample Sample.loaded_store [Sample.alice; Sample.bob]
                   [Sample.purchase_alice] [Sample.widget] = Some _)
    by (vm_compute; reflexivity).
  destruct (run_leaves_tables_unconstrained _ _ _ _ _ _ _ _ _ _ _ Hrun)
    as (tc & tp & tt & Hc & _ & _ & Hcc & Hci & _ & _ & _ & _ & Hs).
  eexists _, tc. split; [exact Hrun|]. split; [exact Hc|].
  split; [exact Hcc|]. split; [exact Hci|]. by rewrite Hs.
Defined.

Lemma rerun_keeps_revenue_of_named_customers_witness :
  ∃ db1 db2,
    run_sample empty_database [Sample.alice; Sample.carol]
      [Sample.purchase_alice; Sample.purchase_carol] [Sample.widget]
    = Some db1
    ∧ run_sample db1 [Sample.alice; Sample.carol]
        [Sample.purchase_alice; Sample.purchase_carol] [Sample.widget]
      = Some db2
    ∧ customer_revenue db2 = customer_revenue db1.
Proof.
  eexists.
  assert (H1 : run_sample empty_database [Sample.alice; Sample.carol]
                 [Sample.purchase_alice; Sample.purchase_carol]
                 [Sample.widget] = Some _)
    by (vm_compute; reflexivity).
  destruct (rerun_keeps_revenue_of_named_customers _ _ _ _ _ _ _ _ _ _ _
              H1) as (db2 & H2 & Hcr).
  - intros tt t [= <-] Ht. vm_compute in Ht.
    repeat (apply elem_of_cons in Ht as [->|Ht]; [by eexists|]).
    by apply elem_of_nil in Ht.
  - exists db2. split; [exact H1|]. split; [exact H2|exact Hcr].
Defined.
